(** * ButtonDebounce: a shallow embedding of the three debouncing engines

    The C++ class [ButtonDebounce] (buttonDebounce.h) is compiled together
    with exactly one of three engine files.  Each engine implements the
    constructor, [reset], [update] and [history] over the same object
    layout.  Here an object is a record, every member function is a pure
    function from the object before the call to the object after it, and
    the three engines live in three modules.

    [uint8_t] values are integers of [Z]; the places where the C++ code
    converts back to [uint8_t] are written out with [wrap8]. *)

From Stdlib Require Import ZArith Bool List Lia.
Import ListNotations.

Local Open Scope Z_scope.

(** ** [uint8_t] arithmetic *)

(** The conversion [(uint8_t)e]. *)
Definition wrap8 (z : Z) : Z := z mod 256.

(** [x++] and [x--] on a [uint8_t] lvalue. *)
Definition inc8 (x : Z) : Z := wrap8 (x + 1).
Definition dec8 (x : Z) : Z := wrap8 (x - 1).

Definition is_uint8 (z : Z) : Prop := 0 <= z < 256.

(** ** buttonDebounce.h *)

Record Config : Type := mkConfig {
  integ_max        : Z;
  integ_on         : Z;
  integ_off        : Z;
  consec_n         : Z;
  edge_threshold   : Z;
  unstable_timeout : Z;
  bounce_confirm   : Z
}.

(** [Config{}]: the default member initialisers. *)
Definition default_config : Config :=
  {| integ_max := 6; integ_on := 4; integ_off := 2;
     consec_n := 3;
     edge_threshold := 4; unstable_timeout := 16; bounce_confirm := 1 |}.

(** Every field of a [Config] is a [uint8_t]. *)
Record wf_config (c : Config) : Prop := mkWfConfig {
  wf_integ_max        : is_uint8 (integ_max c);
  wf_integ_on         : is_uint8 (integ_on c);
  wf_integ_off        : is_uint8 (integ_off c);
  wf_consec_n         : is_uint8 (consec_n c);
  wf_edge_threshold   : is_uint8 (edge_threshold c);
  wf_unstable_timeout : is_uint8 (unstable_timeout c);
  wf_bounce_confirm   : is_uint8 (bounce_confirm c)
}.

Record IntegratorState : Type := mkIntegratorState {
  acc : Z
}.

Record HistoryState : Type := mkHistoryState {
  hist     : Z;
  unstable : Z;
  bounce_k : Z
}.

(** The object.  [E] is the member of the [EngineState] union that the
    engine compiled in reads and writes. *)
Record ButtonDebounce (E : Type) : Type := mkButtonDebounce {
  cfg_      : Config;
  state_    : bool;
  pressed_  : bool;
  released_ : bool;
  eng_      : E
}.

Arguments mkButtonDebounce {E} _ _ _ _ _.
Arguments cfg_ {E} _.
Arguments state_ {E} _.
Arguments pressed_ {E} _.
Arguments released_ {E} _.
Arguments eng_ {E} _.

(** The inline accessors. *)
Definition pressed  {E} (b : ButtonDebounce E) : bool := pressed_ b.
Definition released {E} (b : ButtonDebounce E) : bool := released_ b.
Definition down     {E} (b : ButtonDebounce E) : bool := state_ b.
Definition up       {E} (b : ButtonDebounce E) : bool := negb (state_ b).

(** The shared helpers of the history engines. *)
Definition popcount8 (x : Z) : Z :=
  let x := wrap8 (Z.land x 0x55 + Z.land (Z.shiftr x 1) 0x55) in
  let x := wrap8 (Z.land x 0x33 + Z.land (Z.shiftr x 2) 0x33) in
  wrap8 (Z.land (x + Z.shiftr x 4) 0x0F).

Definition edgeCount8 (hist : Z) : Z :=
  let t := wrap8 (Z.lxor hist (Z.shiftr hist 1)) in
  popcount8 t.

(** ** Code shared by buttonDebounceConsecutive.cpp and
       buttonDebounceEdgeGated.cpp *)

(** [update_hist]: both files define the same static function. *)
Definition update_hist (h : Z) (raw_down : bool) : Z :=
  wrap8 (Z.lor (Z.shiftl h 1) (if raw_down then 1 else 0)).

(** [mask = (n >= 8u) ? 0xFFu : (uint8_t)((1u << n) - 1u)]. *)
Definition consec_mask (n : Z) : Z :=
  if 8 <=? n then 0xFF else wrap8 (Z.shiftl 1 n - 1).

Definition all_pressed (h mask : Z) : bool := Z.land h mask =? mask.
Definition all_released (h mask : Z) : bool := Z.land h mask =? 0.

(** ** buttonDebounceIntegrator.cpp *)

Module Integrator.

Definition t : Type := ButtonDebounce IntegratorState.

Definition reset (b : t) (start_down : bool) : t :=
  {| cfg_ := cfg_ b;
     state_ := start_down;
     pressed_ := false;
     released_ := false;
     eng_ := {| acc := if start_down then integ_max (cfg_ b) else 0 |} |}.

(** The object as the member initialisers leave it, then [reset(false)]. *)
Definition construct (cfg : Config) : t :=
  reset (mkButtonDebounce cfg false false false {| acc := 0 |}) false.

(** The accumulator after the saturating step of [update]. *)
Definition acc_tick (b : t) (raw_down : bool) : Z :=
  let a := acc (eng_ b) in
  if raw_down
  then (if a <? integ_max (cfg_ b) then inc8 a else a)
  else (if 0 <? a then dec8 a else a).

Definition update (b : t) (raw_down : bool) : t :=
  let a := acc_tick b raw_down in
  if negb (state_ b) && (integ_on (cfg_ b) <=? a) then
    mkButtonDebounce (cfg_ b) true true false {| acc := a |}
  else if state_ b && (a <=? integ_off (cfg_ b)) then
    mkButtonDebounce (cfg_ b) false false true {| acc := a |}
  else
    mkButtonDebounce (cfg_ b) (state_ b) false false {| acc := a |}.

Definition history (b : t) : Z := 0.

End Integrator.

(** ** buttonDebounceConsecutive.cpp *)

Module Consecutive.

Definition t : Type := ButtonDebounce HistoryState.

Definition reset (b : t) (start_down : bool) : t :=
  {| cfg_ := cfg_ b;
     state_ := start_down;
     pressed_ := false;
     released_ := false;
     eng_ := {| hist := if start_down then 0xFF else 0x00;
                unstable := 0;
                bounce_k := 0 |} |}.

Definition construct (cfg : Config) : t :=
  reset (mkButtonDebounce cfg false false false (mkHistoryState 0 0 0)) false.

Definition update (b : t) (raw_down : bool) : t :=
  let h := update_hist (hist (eng_ b)) raw_down in
  let e := {| hist := h;
              unstable := unstable (eng_ b);
              bounce_k := bounce_k (eng_ b) |} in
  let mask := consec_mask (consec_n (cfg_ b)) in
  if negb (state_ b) && all_pressed h mask then
    mkButtonDebounce (cfg_ b) true true false e
  else if state_ b && all_released h mask then
    mkButtonDebounce (cfg_ b) false false true e
  else
    mkButtonDebounce (cfg_ b) (state_ b) false false e.

Definition history (b : t) : Z := hist (eng_ b).

End Consecutive.

(** ** buttonDebounceEdgeGated.cpp *)

Module EdgeGated.

Definition t : Type := ButtonDebounce HistoryState.

Definition reset (b : t) (start_down : bool) : t :=
  {| cfg_ := cfg_ b;
     state_ := start_down;
     pressed_ := false;
     released_ := false;
     eng_ := {| hist := if start_down then 0xFF else 0x00;
                unstable := 0;
                bounce_k := 0 |} |}.

Definition construct (cfg : Config) : t :=
  reset (mkButtonDebounce cfg false false false (mkHistoryState 0 0 0)) false.

(** The successive values [update] computes, each from the previous. *)
Definition hist_tick (b : t) (raw_down : bool) : Z :=
  update_hist (hist (eng_ b)) raw_down.

Definition bouncing_now (b : t) (raw_down : bool) : bool :=
  edge_threshold (cfg_ b) <=? edgeCount8 (hist_tick b raw_down).

Definition bounce_k_tick (b : t) (raw_down : bool) : Z :=
  let k := bounce_k (eng_ b) in
  if bouncing_now b raw_down
  then (if k <? 255 then inc8 k else k)
  else 0.

Definition bouncing (b : t) (raw_down : bool) : bool :=
  bounce_confirm (cfg_ b) <=? bounce_k_tick b raw_down.

Definition unstable_tick (b : t) (raw_down : bool) : Z :=
  let u := unstable (eng_ b) in
  if bouncing b raw_down
  then (if u <? 255 then inc8 u else u)
  else 0.

Definition update (b : t) (raw_down : bool) : t :=
  let h := hist_tick b raw_down in
  let k := bounce_k_tick b raw_down in
  let u := unstable_tick b raw_down in
  if unstable_timeout (cfg_ b) <=? u then
    mkButtonDebounce (cfg_ b) (state_ b) false false
      {| hist := if state_ b then 0xFF else 0x00;
         unstable := 0;
         bounce_k := 0 |}
  else
    let e := {| hist := h; unstable := u; bounce_k := k |} in
    if negb (bouncing b raw_down) then
      let mask := consec_mask (consec_n (cfg_ b)) in
      if negb (state_ b) && all_pressed h mask then
        mkButtonDebounce (cfg_ b) true true false e
      else if state_ b && all_released h mask then
        mkButtonDebounce (cfg_ b) false false true e
      else
        mkButtonDebounce (cfg_ b) (state_ b) false false e
    else
      mkButtonDebounce (cfg_ b) (state_ b) false false e.

Definition history (b : t) : Z := hist (eng_ b).

End EdgeGated.

(** ** The engine compiled in, and sequences of calls *)

Inductive Engine : Type := EngIntegrator | EngConsecutive | EngEdgeGated.

Definition EngineState (e : Engine) : Type :=
  match e with
  | EngIntegrator => IntegratorState
  | EngConsecutive | EngEdgeGated => HistoryState
  end.

Definition Debouncer (e : Engine) : Type := ButtonDebounce (EngineState e).

Definition construct (e : Engine) : Config -> Debouncer e :=
  match e return Config -> Debouncer e with
  | EngIntegrator => Integrator.construct
  | EngConsecutive => Consecutive.construct
  | EngEdgeGated => EdgeGated.construct
  end.

Definition reset (e : Engine) : Debouncer e -> bool -> Debouncer e :=
  match e return Debouncer e -> bool -> Debouncer e with
  | EngIntegrator => Integrator.reset
  | EngConsecutive => Consecutive.reset
  | EngEdgeGated => EdgeGated.reset
  end.

Definition update (e : Engine) : Debouncer e -> bool -> Debouncer e :=
  match e return Debouncer e -> bool -> Debouncer e with
  | EngIntegrator => Integrator.update
  | EngConsecutive => Consecutive.update
  | EngEdgeGated => EdgeGated.update
  end.

Definition history (e : Engine) : Debouncer e -> Z :=
  match e return Debouncer e -> Z with
  | EngIntegrator => Integrator.history
  | EngConsecutive => Consecutive.history
  | EngEdgeGated => EdgeGated.history
  end.

Definition updateActiveLow (e : Engine) (b : Debouncer e) (pin_level_high : bool) :=
  update e b (negb pin_level_high).
Definition updateActiveHigh (e : Engine) (b : Debouncer e) (pin_level_high : bool) :=
  update e b pin_level_high.

(** A caller's calls on one object, in order. *)
Inductive Call : Type :=
| CallUpdate (raw_down : bool)
| CallReset (start_down : bool).

Definition call (e : Engine) (b : Debouncer e) (c : Call) : Debouncer e :=
  match c with
  | CallUpdate raw_down => update e b raw_down
  | CallReset start_down => reset e b start_down
  end.

Definition run (e : Engine) (b : Debouncer e) (calls : list Call) : Debouncer e :=
  fold_left (call e) calls b.

(** [feed upd b samples]: one [update] per sample, oldest first. *)
Definition feed {E} (upd : ButtonDebounce E -> bool -> ButtonDebounce E)
    (b : ButtonDebounce E) (samples : list bool) : ButtonDebounce E :=
  fold_left upd samples b.

(** [true, false, true, ...] or [false, true, false, ...]. *)
Fixpoint alternating (first : bool) (len : nat) : list bool :=
  match len with
  | O => []
  | S len' => first :: alternating (negb first) len'
  end.

(** Along [samples], no tick on which chatter is confirmed changes the
    debounced level or raises a one-shot flag. *)
Fixpoint gated_ticks_quiet (b : EdgeGated.t) (samples : list bool) : Prop :=
  match samples with
  | [] => True
  | raw :: rest =>
      (EdgeGated.bouncing b raw = true ->
         pressed (EdgeGated.update b raw) = false /\
         released (EdgeGated.update b raw) = false /\
         down (EdgeGated.update b raw) = down b) /\
      gated_ticks_quiet (EdgeGated.update b raw) rest
  end.

(** The objects after each call of [feed upd b samples], oldest first. *)
Fixpoint trace {E} (upd : ButtonDebounce E -> bool -> ButtonDebounce E)
    (b : ButtonDebounce E) (samples : list bool) : list (ButtonDebounce E) :=
  match samples with
  | [] => []
  | raw :: rest => upd b raw :: trace upd (upd b raw) rest
  end.

(** The window [h] ends (at its newest end) in exactly [k] pressed samples:
    bits 0 .. k-1 are set and bit k is clear. *)
Definition ones_run (h k : Z) : Prop :=
  (forall i, 0 <= i < k -> Z.testbit h i = true) /\ Z.testbit h k = false.

(** What the Consecutive engine has reached after [k] pressed samples fed
    to a released object [b0] whose newest sample was released: below the
    required run length the object is still released and its window ends in
    exactly [k] pressed samples; from the required run length on it is
    pressed; and [pressed()] is raised on the sample that completes the run
    and on no other. *)
Definition after_pressed_run (b0 : Consecutive.t) (k : nat) (b : Consecutive.t)
    : Prop :=
  let m := Z.min (consec_n (cfg_ b0)) 8 in
  cfg_ b = cfg_ b0 /\
  (Z.of_nat k < m ->
     state_ b = false /\ ones_run (hist (eng_ b)) (Z.of_nat k)) /\
  (m <= Z.of_nat k -> state_ b = true) /\
  ((1 <= k)%nat -> pressed_ b = (Z.of_nat k =? m)).

(** The configurations under which a settled pressed object stays settled,
    engine by engine. *)
Definition settling_config (e : Engine) (cfg : Config) : Prop :=
  match e with
  | EngIntegrator => integ_off cfg < integ_max cfg
  | EngConsecutive | EngEdgeGated => 1 <= consec_n cfg
  end.

(** ** Concrete objects and configurations used below *)

(** A tick of sustained chatter under the default configuration: fifteen
    unstable ticks so far, the sixteenth reaches the timeout. *)
Definition chattering_pressed : EdgeGated.t :=
  mkButtonDebounce default_config true false false
    {| hist := 0x55; unstable := 15; bounce_k := 15 |}.

(** A released button under the default configuration whose window already
    holds [01010101]. *)
Definition chattering_released : EdgeGated.t :=
  mkButtonDebounce default_config false false false
    {| hist := 0x55; unstable := 0; bounce_k := 0 |}.

(** The default configuration with [consec_n = 0]. *)
Definition config_consec_0 : Config :=
  {| integ_max := 6; integ_on := 4; integ_off := 2;
     consec_n := 0;
     edge_threshold := 4; unstable_timeout := 16; bounce_confirm := 1 |}.

(** The default configuration with [integ_off] raised to [integ_max]. *)
Definition config_off_at_max : Config :=
  {| integ_max := 6; integ_on := 4; integ_off := 6;
     consec_n := 3;
     edge_threshold := 4; unstable_timeout := 16; bounce_confirm := 1 |}.

(** A released Consecutive object under the default configuration
    ([consec_n = 3]) whose two newest samples are pressed. *)
Definition two_pressed_samples : Consecutive.t :=
  mkButtonDebounce default_config false false false
    {| hist := 0x03; unstable := 0; bounce_k := 0 |}.

(** ** Vocabulary for the properties of the helpers and of longer runs *)

(** Every [uint8_t] value, in increasing order. *)
Definition uint8_values : list Z := map Z.of_nat (seq 0 256).

(** Bit [i] of [x] as a number. *)
Definition bit (x i : Z) : Z := if Z.testbit x i then 1 else 0.

(** How many of the eight bits of [x] are set. *)
Definition set_bits8 (x : Z) : Z :=
  fold_right (fun i n => bit x i + n) 0 [0; 1; 2; 3; 4; 5; 6; 7].

(** How many of the seven pairs of adjacent samples of the window [h]
    differ. *)
Definition transitions8 (h : Z) : Z :=
  fold_right
    (fun i n => (if xorb (Z.testbit h i) (Z.testbit h (i + 1)) then 1 else 0) + n)
    0 [0; 1; 2; 3; 4; 5; 6].

(** The sample fed [i] calls before the end of [samples] (0 = the last). *)
Definition sample_ago (samples : list bool) (i : nat) : bool :=
  nth i (rev samples) false.

(** The window [h] ends (at its newest end) in exactly [k] released samples,
    as far as the eight bits go: bits 0 .. k-1 are clear, and bit k, when
    there is one, is set. *)
Definition zeros_run (h k : Z) : Prop :=
  (forall i, 0 <= i < k -> Z.testbit h i = false) /\
  (k < 8 -> Z.testbit h k = true).

(** What the Consecutive engine has reached after [k] released samples fed
    to a pressed object [b0] whose newest sample was pressed. *)
Definition after_released_run (b0 : Consecutive.t) (k : nat) (b : Consecutive.t)
    : Prop :=
  let m := Z.min (consec_n (cfg_ b0)) 8 in
  cfg_ b = cfg_ b0 /\
  (Z.of_nat k < m ->
     state_ b = true /\ zeros_run (hist (eng_ b)) (Z.of_nat k)) /\
  (m <= Z.of_nat k -> state_ b = false) /\
  ((1 <= k)%nat -> released_ b = (Z.of_nat k =? m)).

(** Two history-engine objects a caller cannot tell apart: same
    configuration, level, one-shot flags and history byte. *)
Definition same_view (b1 b2 : ButtonDebounce HistoryState) : Prop :=
  cfg_ b1 = cfg_ b2 /\
  state_ b1 = state_ b2 /\
  pressed_ b1 = pressed_ b2 /\
  released_ b1 = released_ b2 /\
  hist (eng_ b1) = hist (eng_ b2).

(** Chatter is confirmed on every tick of [samples], fed to [b]. *)
Fixpoint all_confirmed (b : EdgeGated.t) (samples : list bool) : bool :=
  match samples with
  | [] => true
  | raw :: rest =>
      EdgeGated.bouncing b raw && all_confirmed (EdgeGated.update b raw) rest
  end.

(** The thresholds of the Integrator are ordered as its hysteresis needs:
    [0 <= integ_off < integ_on <= integ_max]. *)
Definition hysteresis_config (cfg : Config) : Prop :=
  0 <= integ_off cfg /\ integ_off cfg < integ_on cfg /\
  integ_on cfg <= integ_max cfg.

(** ** Sanity checks of the embedding on concrete values *)

Example popcount8_0xB5 : popcount8 0xB5 = 5.
Proof. reflexivity. Qed.

Example edgeCount8_0xAA : edgeCount8 0xAA = 8.
Proof. reflexivity. Qed.

Example edgeCount8_0xFF : edgeCount8 0xFF = 1.
Proof. reflexivity. Qed.

Example consec_mask_3 : consec_mask 3 = 7.
Proof. reflexivity. Qed.

Example consecutive_scenario :
  let b0 := Consecutive.construct default_config in
  let b3 := feed Consecutive.update b0 [true; true; true] in
  let b6 := feed Consecutive.update b3 [false; false; false] in
  pressed (feed Consecutive.update b0 [true; true]) = false /\
  pressed b3 = true /\ down b3 = true /\
  released (feed Consecutive.update b3 [false; false]) = false /\
  released b6 = true /\ down b6 = false.
Proof. repeat split; reflexivity. Qed.

(** ** EdgeGated: timeout escape and gating *)

Module EdgeGatedFacts.
Section Tick.

Import EdgeGated.

Variable b : EdgeGated.t.
Variable raw_down : bool.

Lemma update_on_timeout :
  unstable_timeout (cfg_ b) <= unstable_tick b raw_down ->
  update b raw_down =
    mkButtonDebounce (cfg_ b) (state_ b) false false
      {| hist := if state_ b then 0xFF else 0x00;
         unstable := 0; bounce_k := 0 |}.
Proof.
  intros Hto. unfold update.
  apply Z.leb_le in Hto. rewrite Hto. reflexivity.
Qed.

Lemma update_when_gated :
  bouncing b raw_down = true ->
  state_ (update b raw_down) = state_ b /\
  pressed_ (update b raw_down) = false /\
  released_ (update b raw_down) = false.
Proof.
  intros Hb. unfold update. rewrite Hb.
  destruct (unstable_timeout (cfg_ b) <=? unstable_tick b raw_down);
    simpl; auto.
Qed.

End Tick.
End EdgeGatedFacts.

(** C1. EdgeGated: on a tick where the [unstable] counter, after its
    increment or reset of this tick, has reached [unstable_timeout], [update]
    sets [hist] to 0xFF when the debounced state is pressed and to 0x00 when
    it is released, zeroes [unstable] and [bounce_k], and returns at once: the
    debounced state is the one before the call and both one-shot flags are
    false. *)
Theorem edge_gated_timeout_recenters (b : EdgeGated.t) (raw_down : bool) :
  unstable_timeout (cfg_ b) <= EdgeGated.unstable_tick b raw_down ->
  let b' := EdgeGated.update b raw_down in
  EdgeGated.history b' = (if down b then 0xFF else 0x00) /\
  unstable (eng_ b') = 0 /\
  bounce_k (eng_ b') = 0 /\
  down b' = down b /\
  pressed b' = false /\
  released b' = false /\
  cfg_ b' = cfg_ b.
Proof.
  intros Hto b'. subst b'.
  rewrite (EdgeGatedFacts.update_on_timeout b raw_down Hto).
  unfold EdgeGated.history, down, pressed, released. simpl.
  repeat split.
Qed.

Lemma edge_gated_timeout_recenters_witness :
  let b' := EdgeGated.update chattering_pressed false in
  EdgeGated.history b' = 0xFF /\
  unstable (eng_ b') = 0 /\
  bounce_k (eng_ b') = 0 /\
  down b' = true /\
  pressed b' = false /\
  released b' = false /\
  cfg_ b' = default_config.
Proof.
  apply (edge_gated_timeout_recenters chattering_pressed false).
  vm_compute. discriminate.
Defined.

Lemma gated_ticks_quiet_any (samples : list bool) :
  forall b : EdgeGated.t, gated_ticks_quiet b samples.
Proof.
  induction samples as [| raw rest IH]; intros b; simpl.
  - exact I.
  - split; [| apply IH].
    intros Hb.
    destruct (EdgeGatedFacts.update_when_gated b raw Hb) as (Hs & Hp & Hr).
    unfold pressed, released, down. auto.
Qed.

(** C2. EdgeGated: on a tick where chatter is confirmed ([bounce_k], after
    its update of this tick, has reached [bounce_confirm]) neither one-shot
    flag is raised and the debounced level stays as it was; in particular,
    along an alternating input of length at least [edge_threshold], no tick
    with confirmed chatter produces a transition. *)
Theorem edge_gated_confirmed_chatter_gates :
  (forall (b : EdgeGated.t) (raw_down : bool),
      bounce_confirm (cfg_ b) <= EdgeGated.bounce_k_tick b raw_down ->
      pressed (EdgeGated.update b raw_down) = false /\
      released (EdgeGated.update b raw_down) = false /\
      down (EdgeGated.update b raw_down) = down b) /\
  (forall (b : EdgeGated.t) (first : bool) (len : nat),
      edge_threshold (cfg_ b) <= Z.of_nat len ->
      gated_ticks_quiet b (alternating first len)).
Proof.
  split.
  - intros b raw_down Hk.
    assert (Hb : EdgeGated.bouncing b raw_down = true)
      by (unfold EdgeGated.bouncing; now apply Z.leb_le).
    destruct (EdgeGatedFacts.update_when_gated b raw_down Hb) as (Hs & Hp & Hr).
    unfold pressed, released, down. auto.
  - intros b first len _. apply gated_ticks_quiet_any.
Qed.

Lemma edge_gated_confirmed_chatter_gates_witness :
  (pressed (EdgeGated.update chattering_released false) = false /\
   released (EdgeGated.update chattering_released false) = false /\
   down (EdgeGated.update chattering_released false) = down chattering_released) /\
  gated_ticks_quiet chattering_released (alternating false 8).
Proof.
  destruct edge_gated_confirmed_chatter_gates as [Htick Hseq].
  split.
  - apply (Htick chattering_released false). vm_compute. discriminate.
  - apply (Hseq chattering_released false 8%nat). vm_compute. discriminate.
Defined.

(** ** Properties common to the three engines *)

Module IntegratorFacts.
Section Tick.

Import Integrator.

Variable b : Integrator.t.
Variable raw_down : bool.

Lemma integrator_update_cases :
  (state_ b = false /\ state_ (update b raw_down) = true /\
   pressed_ (update b raw_down) = true /\ released_ (update b raw_down) = false) \/
  (state_ b = true /\ state_ (update b raw_down) = false /\
   pressed_ (update b raw_down) = false /\ released_ (update b raw_down) = true) \/
  (state_ (update b raw_down) = state_ b /\
   pressed_ (update b raw_down) = false /\ released_ (update b raw_down) = false).
Proof.
  unfold update.
  destruct (state_ b) eqn:Hs; simpl;
    [ destruct (acc_tick b raw_down <=? integ_off (cfg_ b))
    | destruct (integ_on (cfg_ b) <=? acc_tick b raw_down) ];
    simpl; rewrite ?Hs; tauto.
Qed.

Lemma integrator_update_cfg : cfg_ (update b raw_down) = cfg_ b.
Proof.
  unfold update.
  destruct (negb (state_ b) && _); [reflexivity |].
  destruct (state_ b && _); reflexivity.
Qed.

Lemma integrator_update_acc : acc (eng_ (update b raw_down)) = acc_tick b raw_down.
Proof.
  unfold update.
  destruct (negb (state_ b) && _); [reflexivity |].
  destruct (state_ b && _); reflexivity.
Qed.

End Tick.
End IntegratorFacts.

Module ConsecutiveFacts.
Section Tick.

Import Consecutive.

Variable b : Consecutive.t.
Variable raw_down : bool.

Lemma consecutive_update_cases :
  (state_ b = false /\ state_ (update b raw_down) = true /\
   pressed_ (update b raw_down) = true /\ released_ (update b raw_down) = false) \/
  (state_ b = true /\ state_ (update b raw_down) = false /\
   pressed_ (update b raw_down) = false /\ released_ (update b raw_down) = true) \/
  (state_ (update b raw_down) = state_ b /\
   pressed_ (update b raw_down) = false /\ released_ (update b raw_down) = false).
Proof.
  unfold update.
  destruct (state_ b) eqn:Hs; simpl;
    [ destruct (all_released _ _) | destruct (all_pressed _ _) ];
    simpl; rewrite ?Hs; tauto.
Qed.

Lemma consecutive_update_cfg : cfg_ (update b raw_down) = cfg_ b.
Proof.
  unfold update.
  destruct (negb (state_ b) && _); [reflexivity |].
  destruct (state_ b && _); reflexivity.
Qed.

Lemma consecutive_update_hist :
  hist (eng_ (update b raw_down)) = update_hist (hist (eng_ b)) raw_down.
Proof.
  unfold update.
  destruct (negb (state_ b) && _); [reflexivity |].
  destruct (state_ b && _); reflexivity.
Qed.

End Tick.
End ConsecutiveFacts.

Module EdgeGatedCases.
Section Tick.

Import EdgeGated.

Variable b : EdgeGated.t.
Variable raw_down : bool.

Lemma edge_gated_update_cases :
  (state_ b = false /\ state_ (update b raw_down) = true /\
   pressed_ (update b raw_down) = true /\ released_ (update b raw_down) = false) \/
  (state_ b = true /\ state_ (update b raw_down) = false /\
   pressed_ (update b raw_down) = false /\ released_ (update b raw_down) = true) \/
  (state_ (update b raw_down) = state_ b /\
   pressed_ (update b raw_down) = false /\ released_ (update b raw_down) = false).
Proof.
  unfold update.
  destruct (unstable_timeout (cfg_ b) <=? unstable_tick b raw_down);
    [simpl; tauto |].
  destruct (bouncing b raw_down); [simpl; tauto |].
  destruct (state_ b) eqn:Hs; simpl;
    [ destruct (all_released _ _) | destruct (all_pressed _ _) ];
    simpl; rewrite ?Hs; tauto.
Qed.

End Tick.
End EdgeGatedCases.

(** Whatever the engine, one [update] does one of three things. *)
Lemma update_cases (e : Engine) (b : Debouncer e) (raw_down : bool) :
  let b' := update e b raw_down in
  (down b = false /\ down b' = true /\ pressed b' = true /\ released b' = false) \/
  (down b = true /\ down b' = false /\ pressed b' = false /\ released b' = true) \/
  (down b' = down b /\ pressed b' = false /\ released b' = false).
Proof.
  unfold down, pressed, released.
  destruct e; simpl.
  - apply IntegratorFacts.integrator_update_cases.
  - apply ConsecutiveFacts.consecutive_update_cases.
  - apply EdgeGatedCases.edge_gated_update_cases.
Qed.

Lemma reset_flags (e : Engine) (b : Debouncer e) (start_down : bool) :
  pressed (reset e b start_down) = false /\
  released (reset e b start_down) = false /\
  down (reset e b start_down) = start_down.
Proof. destruct e; repeat split. Qed.

Lemma run_snoc (e : Engine) (b : Debouncer e) (calls : list Call) (c : Call) :
  run e b (calls ++ [c]) = call e (run e b calls) c.
Proof. unfold run. rewrite fold_left_app. reflexivity. Qed.

(** C4. For each engine, each object and each raw sample: [pressed()] is
    true after [update] exactly when [down()] was false before the call and is
    true after it, and [released()] is true after [update] exactly when
    [down()] was true before and is false after.  So a flag is raised only on
    the tick of the corresponding transition of the debounced level. *)
Theorem one_shot_flags_mark_transitions
    (e : Engine) (b : Debouncer e) (raw_down : bool) :
  let b' := update e b raw_down in
  (pressed b' = true <-> down b = false /\ down b' = true) /\
  (released b' = true <-> down b = true /\ down b' = false).
Proof.
  intros b'. subst b'.
  destruct (update_cases e b raw_down)
    as [(H0 & H1 & Hp & Hr) | [(H0 & H1 & Hp & Hr) | (H1 & Hp & Hr)]];
    rewrite Hp, Hr, ?H0, ?H1; split; split; try tauto; try congruence;
    intros [Ha Hb]; congruence.
Qed.

(** C5. For each engine and each configuration, after any sequence of
    [update] and [reset] calls on a freshly constructed object, [pressed()]
    and [released()] are not both true. *)
Theorem pressed_released_exclusive
    (e : Engine) (cfg : Config) (calls : list Call) :
  pressed (run e (construct e cfg) calls) && released (run e (construct e cfg) calls)
  = false.
Proof.
  induction calls as [| c calls IH] using rev_ind.
  - destruct e; reflexivity.
  - rewrite run_snoc. destruct c as [raw_down | start_down]; simpl.
    + destruct (update_cases e (run e (construct e cfg) calls) raw_down)
        as [(_ & _ & Hp & Hr) | [(_ & _ & Hp & Hr) | (_ & Hp & Hr)]];
        rewrite Hp, Hr; reflexivity.
    + destruct (reset_flags e (run e (construct e cfg) calls) start_down)
        as (Hp & _). rewrite Hp. reflexivity.
Qed.

(** C10. For each engine and each configuration, a freshly constructed
    object is released: [down()] is false, [up()] is true, both one-shot
    flags are false and [history()] is 0. *)
Theorem construct_starts_released (e : Engine) (cfg : Config) :
  let b := construct e cfg in
  down b = false /\ up b = true /\
  pressed b = false /\ released b = false /\
  history e b = 0 /\
  b = reset e b false.
Proof. destruct e; repeat split. Qed.

(** ** Integrator: the default thresholds *)

(** C6. Integrator with [integ_max = 6], [integ_on = 4], [integ_off = 2]:
    after [reset(false)], of four [true] samples only the fourth raises
    [pressed()]; of the two [false] samples that follow, only the second
    raises [released()]. *)
Theorem integrator_6_4_2_scenario (b : Integrator.t) :
  integ_max (cfg_ b) = 6 -> integ_on (cfg_ b) = 4 -> integ_off (cfg_ b) = 2 ->
  let b0 := Integrator.reset b false in
  let b4 := feed Integrator.update b0 [true; true; true; true] in
  map pressed (trace Integrator.update b0 [true; true; true; true])
    = [false; false; false; true] /\
  down b4 = true /\
  map released (trace Integrator.update b4 [false; false]) = [false; true] /\
  down (feed Integrator.update b4 [false; false]) = false.
Proof.
  destruct b as [[imax ion ioff n et ut bc] s p r [a]]. simpl.
  intros -> -> ->. repeat split.
Qed.

Lemma integrator_6_4_2_scenario_witness :
  let b0 := Integrator.reset (Integrator.construct default_config) false in
  let b4 := feed Integrator.update b0 [true; true; true; true] in
  map pressed (trace Integrator.update b0 [true; true; true; true])
    = [false; false; false; true] /\
  down b4 = true /\
  map released (trace Integrator.update b4 [false; false]) = [false; true] /\
  down (feed Integrator.update b4 [false; false]) = false.
Proof.
  apply (integrator_6_4_2_scenario (Integrator.construct default_config));
    reflexivity.
Defined.

(** ** The history window, bit by bit *)

Lemma wrap8_testbit (z i : Z) :
  0 <= i -> Z.testbit (wrap8 z) i = (i <? 8) && Z.testbit z i.
Proof.
  intros Hi. unfold wrap8. change 256 with (2 ^ 8).
  destruct (Z.ltb_spec i 8) as [Hlt | Hge]; cbn [andb].
  - apply Z.mod_pow2_bits_low. lia.
  - apply Z.mod_pow2_bits_high. lia.
Qed.

Lemma update_hist_testbit (h : Z) (raw_down : bool) (i : Z) :
  0 <= i ->
  Z.testbit (update_hist h raw_down) i =
    if i =? 0 then raw_down else (i <? 8) && Z.testbit h (i - 1).
Proof.
  intros Hi. unfold update_hist.
  rewrite wrap8_testbit, Z.lor_spec, Z.shiftl_spec by lia.
  destruct (Z.eqb_spec i 0) as [-> | Hne].
  - simpl. destruct raw_down; reflexivity.
  - assert (Hb : Z.testbit (if raw_down then 1 else 0) i = false).
    { destruct raw_down.
      - change 1 with (Z.ones 1). apply Z.ones_spec_high. lia.
      - apply Z.testbit_0_l. }
    rewrite Hb, orb_false_r. reflexivity.
Qed.

Lemma consec_mask_testbit (n i : Z) :
  0 <= n -> 0 <= i ->
  Z.testbit (consec_mask n) i = (i <? Z.min n 8).
Proof.
  intros Hn Hi. unfold consec_mask.
  destruct (Z.leb_spec 8 n) as [Hge | Hlt].
  - change 0xFF with (Z.ones 8). rewrite Z.testbit_ones_nonneg by lia.
    rewrite Z.min_r by lia. reflexivity.
  - rewrite wrap8_testbit by lia.
    rewrite Z.sub_1_r. fold (Z.ones n).
    rewrite Z.testbit_ones_nonneg by lia.
    rewrite Z.min_l by lia.
    destruct (Z.ltb_spec i 8), (Z.ltb_spec i n); simpl; try reflexivity; lia.
Qed.

Lemma all_pressed_bits (h n : Z) :
  0 <= n ->
  all_pressed h (consec_mask n) = true <->
  (forall i, 0 <= i < Z.min n 8 -> Z.testbit h i = true).
Proof.
  intros Hn. unfold all_pressed. rewrite Z.eqb_eq. split.
  - intros Heq i Hi.
    apply (f_equal (fun z => Z.testbit z i)) in Heq.
    rewrite Z.land_spec, consec_mask_testbit in Heq by lia.
    destruct (Z.ltb_spec i (Z.min n 8)); [| lia].
    now rewrite andb_true_r in Heq.
  - intros Hbits. apply Z.bits_inj'. intros i Hi.
    rewrite Z.land_spec, consec_mask_testbit by lia.
    destruct (Z.ltb_spec i (Z.min n 8)).
    + rewrite Hbits by lia. reflexivity.
    + apply andb_false_r.
Qed.

Lemma all_released_bits (h n : Z) :
  0 <= n ->
  all_released h (consec_mask n) = true <->
  (forall i, 0 <= i < Z.min n 8 -> Z.testbit h i = false).
Proof.
  intros Hn. unfold all_released. rewrite Z.eqb_eq. split.
  - intros Heq i Hi.
    apply (f_equal (fun z => Z.testbit z i)) in Heq.
    rewrite Z.land_spec, consec_mask_testbit, Z.testbit_0_l in Heq by lia.
    destruct (Z.ltb_spec i (Z.min n 8)); [| lia].
    now rewrite andb_true_r in Heq.
  - intros Hbits. apply Z.bits_inj'. intros i Hi.
    rewrite Z.land_spec, consec_mask_testbit, Z.testbit_0_l by lia.
    destruct (Z.ltb_spec i (Z.min n 8)).
    + rewrite Hbits by lia. reflexivity.
    + apply andb_false_r.
Qed.

(** With [consec_n >= 1] the newest sample decides alone against a
    transition: a released sample forbids "all pressed", a pressed sample
    forbids "all released". *)
Lemma not_all_pressed_after_false (h n : Z) :
  1 <= n -> all_pressed (update_hist h false) (consec_mask n) = false.
Proof.
  intros Hn. apply not_true_is_false. intros Hall.
  rewrite all_pressed_bits in Hall by lia.
  specialize (Hall 0 ltac:(lia)).
  rewrite update_hist_testbit in Hall by lia. discriminate.
Qed.

Lemma not_all_released_after_true (h n : Z) :
  1 <= n -> all_released (update_hist h true) (consec_mask n) = false.
Proof.
  intros Hn. apply not_true_is_false. intros Hall.
  rewrite all_released_bits in Hall by lia.
  specialize (Hall 0 ltac:(lia)).
  rewrite update_hist_testbit in Hall by lia. discriminate.
Qed.

Lemma update_hist_0xFF_true : update_hist 0xFF true = 0xFF.
Proof. reflexivity. Qed.

(** ** [reset(true)] followed by [update(true)] *)

(** C7, as the claim reads, fails on each engine under a degenerate
    configuration: with [integ_off = integ_max] the Integrator releases at
    once, and with [consec_n = 0] so do Consecutive and EdgeGated. *)
Lemma settled_reset_update_counterexample :
  (let b := Integrator.update
              (Integrator.reset (Integrator.construct config_off_at_max) true) true in
   down b = false /\ released b = true) /\
  (let b := Consecutive.update
              (Consecutive.reset (Consecutive.construct config_consec_0) true) true in
   down b = false /\ released b = true) /\
  (let b := EdgeGated.update
              (EdgeGated.reset (EdgeGated.construct config_consec_0) true) true in
   down b = false /\ released b = true).
Proof. repeat split. Qed.

Lemma integrator_settled (b : Integrator.t) :
  integ_off (cfg_ b) < integ_max (cfg_ b) ->
  Integrator.update (Integrator.reset b true) true =
    mkButtonDebounce (cfg_ b) true false false {| acc := integ_max (cfg_ b) |}.
Proof.
  intros Hoff. unfold Integrator.update, Integrator.acc_tick. simpl.
  rewrite Z.ltb_irrefl.
  destruct (Z.leb_spec (integ_max (cfg_ b)) (integ_off (cfg_ b))); [lia |].
  reflexivity.
Qed.

Lemma consecutive_settled (b : Consecutive.t) :
  1 <= consec_n (cfg_ b) ->
  Consecutive.update (Consecutive.reset b true) true =
    mkButtonDebounce (cfg_ b) true false false
      {| hist := 0xFF; unstable := 0; bounce_k := 0 |}.
Proof.
  intros Hn. unfold Consecutive.update.
  cbn [Consecutive.reset cfg_ state_ eng_ hist unstable bounce_k negb andb].
  rewrite not_all_released_after_true by assumption.
  rewrite update_hist_0xFF_true. reflexivity.
Qed.

Lemma edge_gated_settled (b : EdgeGated.t) :
  1 <= consec_n (cfg_ b) ->
  let b' := EdgeGated.update (EdgeGated.reset b true) true in
  state_ b' = true /\ pressed_ b' = false /\ released_ b' = false.
Proof.
  intros Hn. unfold EdgeGated.update.
  destruct (_ <=? EdgeGated.unstable_tick _ _); [repeat split |].
  destruct (EdgeGated.bouncing _ _); [repeat split |].
  unfold EdgeGated.hist_tick.
  cbn [EdgeGated.reset cfg_ state_ eng_ hist unstable bounce_k negb andb].
  rewrite not_all_released_after_true by assumption.
  repeat split.
Qed.

(** C7, amended.  For each engine, on any object whose configuration has
    [integ_off < integ_max] (Integrator) or [consec_n >= 1] (Consecutive,
    EdgeGated), [reset(true)] followed at once by [update(true)] leaves
    [down()] true and both one-shot flags false. *)
Theorem settled_reset_update (e : Engine) (b : Debouncer e) :
  settling_config e (cfg_ b) ->
  let b' := update e (reset e b true) true in
  down b' = true /\ pressed b' = false /\ released b' = false.
Proof.
  unfold down, pressed, released.
  destruct e; simpl; intros Hcfg.
  - rewrite integrator_settled by assumption. repeat split.
  - rewrite consecutive_settled by assumption. repeat split.
  - apply edge_gated_settled. assumption.
Qed.

Lemma settled_reset_update_witness :
  let b' := update EngConsecutive
              (reset EngConsecutive (construct EngConsecutive default_config) true)
              true in
  down b' = true /\ pressed b' = false /\ released b' = false.
Proof.
  apply (settled_reset_update EngConsecutive
           (construct EngConsecutive default_config)).
  simpl. lia.
Defined.

(** ** Consecutive with [consec_n = 0] *)

(** C8. Consecutive with [consec_n = 0]: the mask is 0, "all pressed" and
    "all released" both hold whatever the window, and every [update] flips
    the debounced level: [pressed()] is raised when the object was released,
    [released()] when it was pressed, whatever the raw sample. *)
Theorem consecutive_n0_always_transitions
    (b : Consecutive.t) (raw_down : bool) :
  consec_n (cfg_ b) = 0 ->
  let h := update_hist (hist (eng_ b)) raw_down in
  let b' := Consecutive.update b raw_down in
  consec_mask (consec_n (cfg_ b)) = 0 /\
  all_pressed h 0 = true /\
  all_released h 0 = true /\
  down b' = negb (down b) /\
  pressed b' = negb (down b) /\
  released b' = down b /\
  Consecutive.history b' = h.
Proof.
  intros Hn h b'. subst h b'.
  unfold Consecutive.update, down, pressed, released, Consecutive.history,
    all_pressed, all_released.
  rewrite Hn. change (consec_mask 0) with 0.
  rewrite Z.land_0_r. cbn [Z.eqb andb].
  destruct (state_ b); repeat split.
Qed.

Lemma consecutive_n0_always_transitions_witness :
  let b := Consecutive.construct config_consec_0 in
  let h := update_hist (hist (eng_ b)) false in
  let b' := Consecutive.update b false in
  consec_mask (consec_n (cfg_ b)) = 0 /\
  all_pressed h 0 = true /\
  all_released h 0 = true /\
  down b' = negb (down b) /\
  pressed b' = negb (down b) /\
  released b' = down b /\
  Consecutive.history b' = h.
Proof.
  apply (consecutive_n0_always_transitions
           (Consecutive.construct config_consec_0) false).
  reflexivity.
Defined.

(** ** Saturating counters *)

Lemma inc8_exact (x : Z) : 0 <= x < 255 -> inc8 x = x + 1.
Proof. intros Hx. unfold inc8, wrap8. apply Z.mod_small. lia. Qed.

Lemma dec8_exact (x : Z) : 0 < x < 256 -> dec8 x = x - 1.
Proof. intros Hx. unfold dec8, wrap8. apply Z.mod_small. lia. Qed.

Lemma guarded_inc8_saturates (x : Z) :
  is_uint8 x -> (if x <? 255 then inc8 x else x) = Z.min (x + 1) 255.
Proof.
  unfold is_uint8. intros Hx.
  destruct (Z.ltb_spec x 255); [rewrite inc8_exact by lia |]; lia.
Qed.

Lemma acc_tick_saturates (b : Integrator.t) (raw_down : bool) :
  is_uint8 (integ_max (cfg_ b)) ->
  0 <= acc (eng_ b) <= integ_max (cfg_ b) ->
  Integrator.acc_tick b raw_down =
    if raw_down
    then Z.min (acc (eng_ b) + 1) (integ_max (cfg_ b))
    else Z.max (acc (eng_ b) - 1) 0.
Proof.
  unfold is_uint8, Integrator.acc_tick. intros Hmax Hacc.
  destruct raw_down.
  - destruct (Z.ltb_spec (acc (eng_ b)) (integ_max (cfg_ b)));
      [rewrite inc8_exact by lia |]; lia.
  - destruct (Z.ltb_spec 0 (acc (eng_ b)));
      [rewrite dec8_exact by lia |]; lia.
Qed.

Lemma integrator_run_inv (cfg : Config) (calls : list Call) :
  is_uint8 (integ_max cfg) ->
  let b := run EngIntegrator (construct EngIntegrator cfg) calls in
  cfg_ b = cfg /\ 0 <= acc (eng_ b) <= integ_max cfg.
Proof.
  intros Hmax.
  induction calls as [| c calls IH] using rev_ind.
  - unfold is_uint8 in Hmax. simpl. split; [reflexivity | lia].
  - rewrite run_snoc. cbv zeta in IH.
    remember (run EngIntegrator (construct EngIntegrator cfg) calls) as b eqn:Eb.
    clear Eb. destruct IH as [Hcfg Hacc]. subst cfg.
    cbn [EngineState] in *.
    destruct c as [raw_down | start_down]; simpl.
    + rewrite IntegratorFacts.integrator_update_cfg, IntegratorFacts.integrator_update_acc.
      split; [reflexivity |].
      rewrite acc_tick_saturates by assumption.
      unfold is_uint8 in Hmax. destruct raw_down; lia.
    + split; [reflexivity |].
      unfold is_uint8 in Hmax. destruct start_down; lia.
Qed.

Lemma edge_gated_ticks_saturate (b : EdgeGated.t) (raw_down : bool) :
  is_uint8 (unstable (eng_ b)) -> is_uint8 (bounce_k (eng_ b)) ->
  EdgeGated.bounce_k_tick b raw_down =
    (if EdgeGated.bouncing_now b raw_down
     then Z.min (bounce_k (eng_ b) + 1) 255 else 0) /\
  EdgeGated.unstable_tick b raw_down =
    (if EdgeGated.bouncing b raw_down
     then Z.min (unstable (eng_ b) + 1) 255 else 0).
Proof.
  intros Hu Hk. unfold EdgeGated.bounce_k_tick, EdgeGated.unstable_tick.
  rewrite !guarded_inc8_saturates by assumption.
  split; reflexivity.
Qed.

Lemma edge_gated_update_counters (b : EdgeGated.t) (raw_down : bool) :
  is_uint8 (unstable (eng_ b)) -> is_uint8 (bounce_k (eng_ b)) ->
  is_uint8 (unstable (eng_ (EdgeGated.update b raw_down))) /\
  is_uint8 (bounce_k (eng_ (EdgeGated.update b raw_down))).
Proof.
  intros Hu Hk.
  destruct (edge_gated_ticks_saturate b raw_down Hu Hk) as [Ek Eu].
  assert (Hk' : is_uint8 (EdgeGated.bounce_k_tick b raw_down)).
  { rewrite Ek. unfold is_uint8 in *.
    destruct (EdgeGated.bouncing_now b raw_down); lia. }
  assert (Hu' : is_uint8 (EdgeGated.unstable_tick b raw_down)).
  { rewrite Eu. unfold is_uint8 in *.
    destruct (EdgeGated.bouncing b raw_down); lia. }
  unfold EdgeGated.update.
  destruct (_ <=? EdgeGated.unstable_tick _ _);
    [simpl; unfold is_uint8; lia |].
  destruct (EdgeGated.bouncing b raw_down); cbn [negb];
    [simpl; auto |].
  destruct (negb (state_ b) && _); [simpl; auto |].
  destruct (state_ b && _); simpl; auto.
Qed.

Lemma edge_gated_run_inv (cfg : Config) (calls : list Call) :
  let b := run EngEdgeGated (construct EngEdgeGated cfg) calls in
  is_uint8 (unstable (eng_ b)) /\ is_uint8 (bounce_k (eng_ b)).
Proof.
  induction calls as [| c calls IH] using rev_ind.
  - simpl. unfold is_uint8. lia.
  - rewrite run_snoc. cbv zeta in IH. destruct IH as [Hu Hk].
    destruct c as [raw_down | start_down]; simpl.
    + apply edge_gated_update_counters; assumption.
    + unfold is_uint8. lia.
Qed.

(** C9. The counters saturate and never wrap.  Integrator: on a freshly
    constructed object [acc] lies in [0, integ_max] after any sequence of
    [reset] and [update] calls, and one [update] moves it up by one capped at
    [integ_max] on a pressed sample, down by one floored at 0 on a released
    sample.  EdgeGated: [unstable] and [bounce_k] stay within 0..255 after
    any sequence of calls, and one [update] moves each up by one capped at
    255, or sets it to 0. *)
Theorem counters_saturate :
  (forall (cfg : Config) (calls : list Call),
      wf_config cfg ->
      let b := run EngIntegrator (construct EngIntegrator cfg) calls in
      0 <= acc (eng_ b) <= integ_max cfg) /\
  (forall (b : Integrator.t) (raw_down : bool),
      is_uint8 (integ_max (cfg_ b)) ->
      0 <= acc (eng_ b) <= integ_max (cfg_ b) ->
      acc (eng_ (Integrator.update b raw_down)) =
        if raw_down
        then Z.min (acc (eng_ b) + 1) (integ_max (cfg_ b))
        else Z.max (acc (eng_ b) - 1) 0) /\
  (forall (cfg : Config) (calls : list Call),
      let b := run EngEdgeGated (construct EngEdgeGated cfg) calls in
      0 <= unstable (eng_ b) <= 255 /\ 0 <= bounce_k (eng_ b) <= 255) /\
  (forall (b : EdgeGated.t) (raw_down : bool),
      is_uint8 (unstable (eng_ b)) -> is_uint8 (bounce_k (eng_ b)) ->
      EdgeGated.bounce_k_tick b raw_down =
        (if EdgeGated.bouncing_now b raw_down
         then Z.min (bounce_k (eng_ b) + 1) 255 else 0) /\
      EdgeGated.unstable_tick b raw_down =
        (if EdgeGated.bouncing b raw_down
         then Z.min (unstable (eng_ b) + 1) 255 else 0)).
Proof.
  repeat apply conj.
  - intros cfg calls Hwf.
    apply (integrator_run_inv cfg calls (wf_integ_max cfg Hwf)).
  - intros b raw_down Hmax Hacc.
    rewrite IntegratorFacts.integrator_update_acc. now apply acc_tick_saturates.
  - intros cfg calls.
    destruct (edge_gated_run_inv cfg calls) as [Hu Hk].
    unfold is_uint8 in *. cbv zeta. lia.
  - apply edge_gated_ticks_saturate.
Qed.

Lemma default_config_wf : wf_config default_config.
Proof. constructor; unfold is_uint8; simpl; lia. Qed.

Lemma counters_saturate_witness :
  (let b := run EngIntegrator (construct EngIntegrator default_config)
              [CallReset true; CallUpdate true; CallUpdate false] in
   0 <= acc (eng_ b) <= integ_max default_config) /\
  (let b := Integrator.reset (Integrator.construct default_config) true in
   acc (eng_ (Integrator.update b true)) =
     Z.min (acc (eng_ b) + 1) (integ_max (cfg_ b))) /\
  (EdgeGated.bounce_k_tick chattering_pressed false =
     (if EdgeGated.bouncing_now chattering_pressed false
      then Z.min (bounce_k (eng_ chattering_pressed) + 1) 255 else 0) /\
   EdgeGated.unstable_tick chattering_pressed false =
     (if EdgeGated.bouncing chattering_pressed false
      then Z.min (unstable (eng_ chattering_pressed) + 1) 255 else 0)).
Proof.
  destruct counters_saturate as (Hrun & Hstep & _ & Hticks).
  split; [| split].
  - apply (Hrun default_config
             [CallReset true; CallUpdate true; CallUpdate false]).
    exact default_config_wf.
  - apply (Hstep (Integrator.reset (Integrator.construct default_config) true)
             true).
    + unfold is_uint8. simpl. lia.
    + simpl. lia.
  - apply (Hticks chattering_pressed false); unfold is_uint8; simpl; lia.
Defined.

(** ** Consecutive: the length of the run *)

(** C3, as the claim reads, fails: with [consec_n = 3], a released object
    whose window ends in [011] does not satisfy the mask, yet the first
    [true] sample fed to it raises [pressed()].  The Consecutive engine
    reaches this object from [reset(false)] by two [true] samples. *)
Lemma consecutive_nth_sample_counterexample :
  consec_n (cfg_ two_pressed_samples) = 3 /\
  down two_pressed_samples = false /\
  all_pressed (Consecutive.history two_pressed_samples) (consec_mask 3) = false /\
  pressed (feed Consecutive.update two_pressed_samples [true]) = true /\
  pressed (feed Consecutive.update two_pressed_samples [true; true; true]) = false /\
  feed Consecutive.update (Consecutive.reset two_pressed_samples false) [true; true]
    = two_pressed_samples.
Proof. repeat split. Qed.

Lemma feed_snoc {E} (upd : ButtonDebounce E -> bool -> ButtonDebounce E)
    (b : ButtonDebounce E) (samples : list bool) (raw : bool) :
  feed upd b (samples ++ [raw]) = upd (feed upd b samples) raw.
Proof. unfold feed. rewrite fold_left_app. reflexivity. Qed.

Lemma repeat_succ_snoc {A} (a : A) (k : nat) :
  repeat a (S k) = repeat a k ++ [a].
Proof. simpl. apply repeat_cons. Qed.

Module ConsecutiveRun.
Section Run.

Import Consecutive.

Variable b0 : Consecutive.t.

Let n := consec_n (cfg_ b0).
Let m := Z.min n 8.

Hypothesis n_pos : 1 <= n.
Hypothesis b0_released : state_ b0 = false.
Hypothesis b0_newest_clear : Z.testbit (hist (eng_ b0)) 0 = false.

Local Abbreviation after := (after_pressed_run b0).

Lemma after_0 : after 0%nat b0.
Proof.
  unfold after_pressed_run, ones_run. fold n. fold m.
  repeat split; auto; lia.
Qed.

Lemma ones_run_step (h k : Z) :
  0 <= k < 8 -> ones_run h k -> ones_run (update_hist h true) (k + 1).
Proof.
  intros Hk [Hones Hzero]. split.
  - intros i Hi. rewrite update_hist_testbit by lia.
    destruct (Z.eqb_spec i 0); [reflexivity |].
    destruct (Z.ltb_spec i 8); [| lia].
    apply Hones. lia.
  - rewrite update_hist_testbit by lia.
    destruct (Z.eqb_spec (k + 1) 0); [lia |].
    replace (k + 1 - 1) with k by lia.
    rewrite Hzero. apply andb_false_r.
Qed.

Lemma after_step (k : nat) (b : Consecutive.t) :
  after k b -> after (S k) (update b true).
Proof.
  unfold after_pressed_run at 1. fold n. fold m.
  intros (Hcfg & Hlow & Hhigh & _).
  assert (Hm : 1 <= m <= 8) by (subst m; lia).
  assert (Hn : consec_n (cfg_ b) = n) by (subst n; now rewrite Hcfg).
  unfold after_pressed_run. fold n. fold m.
  rewrite ConsecutiveFacts.consecutive_update_cfg.
  destruct (Z.lt_ge_cases (Z.of_nat k) m) as [Hlt | Hge].
  - destruct (Hlow Hlt) as [Hst Hrun].
    apply ones_run_step in Hrun; [| lia].
    replace (Z.of_nat k + 1) with (Z.of_nat (S k)) in Hrun by lia.
    unfold update. rewrite Hst, Hn. cbn [negb andb].
    destruct (all_pressed _ _) eqn:Hall; cbn [cfg_ state_ pressed_ eng_ hist].
    + rewrite all_pressed_bits in Hall by lia. fold m in Hall.
      assert (Z.of_nat (S k) = m).
      { destruct (Z.lt_ge_cases (Z.of_nat (S k)) m) as [Hlt' | Hge']; [| lia].
        destruct Hrun as [_ Hzero].
        rewrite Hall in Hzero by lia. discriminate. }
      repeat split; try lia; try congruence.
      intros _. symmetry. now apply Z.eqb_eq.
    + assert (Z.of_nat (S k) < m).
      { destruct (Z.lt_ge_cases (Z.of_nat (S k)) m) as [Hlt' | Hge']; [lia |].
        assert (Hall' : all_pressed (update_hist (hist (eng_ b)) true)
                          (consec_mask n) = true).
        { rewrite all_pressed_bits by lia. fold m.
          intros i Hi. destruct Hrun as [Hones _]. apply Hones. lia. }
        congruence. }
      repeat split; try lia; try assumption.
      * destruct Hrun as [Hones _]. exact Hones.
      * destruct Hrun as [_ Hzero]. exact Hzero.
      * intros _. symmetry. apply Z.eqb_neq. lia.
  - pose proof (Hhigh Hge) as Hst.
    unfold update. rewrite Hst, Hn. cbn [negb andb].
    rewrite not_all_released_after_true by assumption.
    cbn [cfg_ state_ pressed_ eng_ hist].
    repeat split; try lia; try assumption.
    intros _. symmetry. apply Z.eqb_neq. lia.
Qed.

Lemma after_feed (k : nat) : after k (feed update b0 (repeat true k)).
Proof.
  induction k as [| k IH].
  - exact after_0.
  - rewrite repeat_succ_snoc, feed_snoc. now apply after_step.
Qed.

End Run.
End ConsecutiveRun.

Lemma consecutive_false_sample (b : Consecutive.t) :
  1 <= consec_n (cfg_ b) -> state_ b = false ->
  Consecutive.update b false =
    mkButtonDebounce (cfg_ b) false false false
      {| hist := update_hist (hist (eng_ b)) false;
         unstable := unstable (eng_ b);
         bounce_k := bounce_k (eng_ b) |}.
Proof.
  intros Hn Hst. unfold Consecutive.update.
  rewrite Hst, not_all_pressed_after_false by assumption.
  reflexivity.
Qed.

(** C3, amended.  Consecutive with [consec_n = n >= 1]: from a released
    object whose newest history bit is clear (the last sample was released,
    or the object was just reset to released), [pressed()] is raised by the
    k-th consecutive [true] sample exactly when k = min(n, 8), which is n for
    n <= 8, and the object is down from that sample on; and a [false] sample
    fed to a released object leaves it released, raises no flag and clears
    the newest history bit, so that the count starts again. *)
Theorem consecutive_run_completes :
  (forall (b : Consecutive.t) (k : nat),
      1 <= consec_n (cfg_ b) ->
      down b = false ->
      Z.testbit (Consecutive.history b) 0 = false ->
      (1 <= k)%nat ->
      let m := Z.min (consec_n (cfg_ b)) 8 in
      let b' := feed Consecutive.update b (repeat true k) in
      pressed b' = (Z.of_nat k =? m) /\ down b' = (m <=? Z.of_nat k)) /\
  (forall b : Consecutive.t,
      1 <= consec_n (cfg_ b) ->
      down b = false ->
      let b' := Consecutive.update b false in
      down b' = false /\ pressed b' = false /\ released b' = false /\
      Z.testbit (Consecutive.history b') 0 = false /\
      cfg_ b' = cfg_ b).
Proof.
  split.
  - intros b k Hn Hst Hbit Hk m b'. subst b'.
    destruct (ConsecutiveRun.after_feed b Hn Hst Hbit k)
      as (_ & Hlow & Hhigh & Hp).
    fold m in Hlow, Hhigh, Hp.
    unfold pressed, down. split; [now apply Hp |].
    destruct (Z.leb_spec m (Z.of_nat k)) as [Hge | Hlt].
    + now apply Hhigh.
    + now apply Hlow.
  - intros b Hn Hst b'. subst b'. unfold down in Hst.
    rewrite consecutive_false_sample by assumption.
    unfold down, pressed, released, Consecutive.history.
    cbn [cfg_ state_ pressed_ released_ eng_ hist].
    repeat split.
    now rewrite update_hist_testbit by lia.
Qed.

Lemma consecutive_run_completes_witness :
  (let b := Consecutive.construct default_config in
   let m := Z.min (consec_n (cfg_ b)) 8 in
   let b' := feed Consecutive.update b (repeat true 3) in
   pressed b' = (Z.of_nat 3 =? m) /\ down b' = (m <=? Z.of_nat 3)) /\
  (let b := two_pressed_samples in
   let b' := Consecutive.update b false in
   down b' = false /\ pressed b' = false /\ released b' = false /\
   Z.testbit (Consecutive.history b') 0 = false /\
   cfg_ b' = cfg_ b).
Proof.
  destruct consecutive_run_completes as [Hrun Hfalse].
  split.
  - apply (Hrun (Consecutive.construct default_config) 3%nat).
    + simpl. lia.
    + reflexivity.
    + reflexivity.
    + lia.
  - apply (Hfalse two_pressed_samples).
    + simpl. lia.
    + reflexivity.
Defined.

(** ** The bit helpers of buttonDebounce.h *)

Lemma uint8_in_values (x : Z) : is_uint8 x -> In x uint8_values.
Proof.
  unfold is_uint8, uint8_values. intros Hx.
  rewrite <- (Z2Nat.id x) by lia.
  apply in_map, in_seq. lia.
Qed.

(** A property checked on the 256 values holds of every [uint8_t]. *)
Lemma uint8_exhaust (P : Z -> bool) :
  forallb P uint8_values = true -> forall x, is_uint8 x -> P x = true.
Proof.
  intros Hall x Hx. rewrite forallb_forall in Hall.
  apply Hall, uint8_in_values, Hx.
Qed.

Lemma wrap8_uint8 (z : Z) : is_uint8 (wrap8 z).
Proof. unfold is_uint8, wrap8. apply Z.mod_pos_bound. lia. Qed.

Lemma update_hist_uint8 (h : Z) (raw_down : bool) :
  is_uint8 (update_hist h raw_down).
Proof. apply wrap8_uint8. Qed.

Lemma popcount8_set_bits (x : Z) : is_uint8 x -> popcount8 x = set_bits8 x.
Proof.
  intros Hx. apply Z.eqb_eq.
  apply (uint8_exhaust (fun x => popcount8 x =? set_bits8 x)); [| exact Hx].
  vm_compute. reflexivity.
Qed.

Lemma popcount8_range (x : Z) : is_uint8 x -> 0 <= popcount8 x <= 8.
Proof.
  intros Hx.
  assert (H : ((0 <=? popcount8 x) && (popcount8 x <=? 8))%bool = true).
  { apply (uint8_exhaust
             (fun x => ((0 <=? popcount8 x) && (popcount8 x <=? 8))%bool));
      [vm_compute; reflexivity | exact Hx]. }
  apply andb_prop in H. destruct H as [H0 H8].
  apply Z.leb_le in H0. apply Z.leb_le in H8. lia.
Qed.

Lemma edgeCount8_range (h : Z) : 0 <= edgeCount8 h <= 8.
Proof. unfold edgeCount8. apply popcount8_range, wrap8_uint8. Qed.

(** X1. [popcount8] counts the set bits: on every [uint8_t] it returns the
    number of bits set among bits 0..7, a value between 0 and 8, and it
    returns 0 only for 0 and 8 only for 0xFF. *)
Theorem popcount8_counts_set_bits (x : Z) :
  is_uint8 x ->
  popcount8 x = set_bits8 x /\
  0 <= popcount8 x <= 8 /\
  (popcount8 x = 0 <-> x = 0) /\
  (popcount8 x = 8 <-> x = 0xFF).
Proof.
  intros Hx. split; [now apply popcount8_set_bits |].
  split; [now apply popcount8_range |].
  assert (H : (Bool.eqb (popcount8 x =? 0) (x =? 0)
               && Bool.eqb (popcount8 x =? 8) (x =? 0xFF))%bool = true).
  { apply (uint8_exhaust
             (fun x => (Bool.eqb (popcount8 x =? 0) (x =? 0)
                        && Bool.eqb (popcount8 x =? 8) (x =? 0xFF))%bool));
      [vm_compute; reflexivity | exact Hx]. }
  apply andb_prop in H. destruct H as [H0 H8].
  apply eqb_prop in H0. apply eqb_prop in H8.
  split; rewrite <- !Z.eqb_eq; [rewrite H0 | rewrite H8]; reflexivity.
Qed.

Lemma popcount8_counts_set_bits_witness :
  popcount8 0xB5 = set_bits8 0xB5 /\
  0 <= popcount8 0xB5 <= 8 /\
  (popcount8 0xB5 = 0 <-> 0xB5 = 0) /\
  (popcount8 0xB5 = 8 <-> 0xB5 = 0xFF).
Proof.
  apply (popcount8_counts_set_bits 0xB5). unfold is_uint8. lia.
Defined.

(** X2. [edgeCount8] returns, for a [uint8_t] window, the number of adjacent
    sample pairs that differ plus one when the oldest sample (bit 7) is
    pressed, because the shifted copy brings in a zero above bit 7.  So a
    settled released window 0x00 has no edge, a settled pressed window 0xFF
    has one, and the result never exceeds 8. *)
Theorem edgeCount8_counts_transitions (h : Z) :
  is_uint8 h ->
  edgeCount8 h = transitions8 h + bit h 7 /\
  0 <= edgeCount8 h <= 8.
Proof.
  intros Hh. split; [| apply edgeCount8_range].
  apply Z.eqb_eq.
  apply (uint8_exhaust (fun h => edgeCount8 h =? transitions8 h + bit h 7));
    [vm_compute; reflexivity | exact Hh].
Qed.

Lemma edgeCount8_counts_transitions_witness :
  edgeCount8 0xFF = transitions8 0xFF + bit 0xFF 7 /\
  0 <= edgeCount8 0xFF <= 8.
Proof.
  apply (edgeCount8_counts_transitions 0xFF). unfold is_uint8. lia.
Defined.

(** ** The history byte as a window on the samples *)

Lemma consecutive_feed_hist (samples : list bool) :
  forall b : Consecutive.t,
    hist (eng_ (feed Consecutive.update b samples)) =
    fold_left update_hist samples (hist (eng_ b)).
Proof.
  induction samples as [| raw rest IH]; intros b; [reflexivity |].
  unfold feed in *. cbn [fold_left].
  rewrite IH, ConsecutiveFacts.consecutive_update_hist. reflexivity.
Qed.

Lemma fold_update_hist_bit (samples : list bool) (h : Z) (i : nat) :
  samples <> [] ->
  Z.testbit (fold_left update_hist samples h) (Z.of_nat i) =
    ((i <? 8)%nat &&
     if (i <? length samples)%nat
     then sample_ago samples i
     else Z.testbit h (Z.of_nat (i - length samples))).
Proof.
  revert i. induction samples as [| x l IH] using rev_ind; intros i Hne;
    [congruence |].
  rewrite fold_left_app. cbn [fold_left].
  rewrite update_hist_testbit by lia.
  unfold sample_ago. rewrite rev_unit, length_app. cbn [length].
  destruct i as [| j].
  - cbn [Z.of_nat Z.eqb nth]. destruct (Nat.ltb_spec 0 (length l + 1)); [| lia].
    reflexivity.
  - destruct (Z.eqb_spec (Z.of_nat (S j)) 0); [lia |].
    replace (Z.of_nat (S j) - 1) with (Z.of_nat j) by lia.
    cbn [nth].
    destruct l as [| y l'].
    + cbn [fold_left length Nat.add].
      destruct (Nat.ltb_spec (S j) 1); [lia |].
      replace (S j - 1)%nat with j by lia.
      destruct (Z.ltb_spec (Z.of_nat (S j)) 8), (Nat.ltb_spec (S j) 8);
        try lia; reflexivity.
    + rewrite IH by discriminate. unfold sample_ago.
      destruct (Z.ltb_spec (Z.of_nat (S j)) 8), (Nat.ltb_spec (S j) 8);
        try lia; try reflexivity; cbn [andb].
      destruct (Nat.ltb_spec j 8); [| lia]. cbn [andb].
      destruct (Nat.ltb_spec j (length (y :: l'))),
               (Nat.ltb_spec (S j) (length (y :: l') + 1)); try lia.
      * reflexivity.
      * replace (S j - (length (y :: l') + 1))%nat
          with (j - length (y :: l'))%nat by lia.
        reflexivity.
Qed.

(** X3. Consecutive: [history()] is the window of the raw samples, newest in
    bit 0.  After feeding [samples], bit i of the history byte (i < 8) is the
    sample fed i calls ago; the byte is a [uint8_t]; and once eight or more
    samples have been fed, it no longer depends on the object they were fed
    to. *)
Theorem consecutive_history_is_window (b : Consecutive.t) (samples : list bool) :
  (forall i : nat,
      (i < length samples)%nat -> (i < 8)%nat ->
      Z.testbit (Consecutive.history (feed Consecutive.update b samples))
        (Z.of_nat i) = sample_ago samples i) /\
  (samples <> [] ->
   is_uint8 (Consecutive.history (feed Consecutive.update b samples))) /\
  ((8 <= length samples)%nat ->
   forall b2 : Consecutive.t,
     Consecutive.history (feed Consecutive.update b2 samples) =
     Consecutive.history (feed Consecutive.update b samples)).
Proof.
  unfold Consecutive.history. repeat apply conj.
  - intros i Hlen H8. rewrite consecutive_feed_hist.
    rewrite fold_update_hist_bit by (destruct samples; simpl in *; [lia | discriminate]).
    destruct (Nat.ltb_spec i 8); [| lia].
    destruct (Nat.ltb_spec i (length samples)); [| lia].
    reflexivity.
  - intros Hne. rewrite consecutive_feed_hist.
    destruct (exists_last Hne) as (l & x & ->).
    rewrite fold_left_app. apply update_hist_uint8.
  - intros Hlen b2. rewrite !consecutive_feed_hist.
    assert (Hne : samples <> []) by (destruct samples; simpl in *; [lia | discriminate]).
    apply Z.bits_inj'. intros z Hz.
    rewrite <- (Z2Nat.id z) by lia.
    rewrite !fold_update_hist_bit by assumption.
    destruct (Nat.ltb_spec (Z.to_nat z) 8); [| reflexivity].
    destruct (Nat.ltb_spec (Z.to_nat z) (length samples)); [| lia].
    reflexivity.
Qed.

Lemma consecutive_history_is_window_witness :
  let b := Consecutive.construct default_config in
  let samples := [true; false; false; true; true; false; true; false; true] in
  Z.testbit (Consecutive.history (feed Consecutive.update b samples))
    (Z.of_nat 2) = sample_ago samples 2 /\
  is_uint8 (Consecutive.history (feed Consecutive.update b samples)) /\
  Consecutive.history (feed Consecutive.update two_pressed_samples samples) =
  Consecutive.history (feed Consecutive.update b samples).
Proof.
  destruct (consecutive_history_is_window
              (Consecutive.construct default_config)
              [true; false; false; true; true; false; true; false; true])
    as (Hbit & Hrange & Hfree).
  split; [| split].
  - apply (Hbit 2%nat); simpl; lia.
  - apply Hrange. discriminate.
  - apply (Hfree ltac:(simpl; lia) two_pressed_samples).
Defined.

(** ** Configuration and reset *)

Lemma edge_gated_update_cfg (b : EdgeGated.t) (raw_down : bool) :
  cfg_ (EdgeGated.update b raw_down) = cfg_ b.
Proof.
  unfold EdgeGated.update.
  destruct (_ <=? EdgeGated.unstable_tick _ _); [reflexivity |].
  destruct (EdgeGated.bouncing b raw_down); cbn [negb]; [reflexivity |].
  destruct (negb (state_ b) && _); [reflexivity |].
  destruct (state_ b && _); reflexivity.
Qed.

Lemma call_cfg (e : Engine) (b : Debouncer e) (c : Call) :
  cfg_ (call e b c) = cfg_ b.
Proof.
  destruct c as [raw_down | start_down]; destruct e; simpl;
    try reflexivity.
  - apply IntegratorFacts.integrator_update_cfg.
  - apply ConsecutiveFacts.consecutive_update_cfg.
  - apply edge_gated_update_cfg.
Qed.

Lemma run_cfg (e : Engine) (calls : list Call) :
  forall b : Debouncer e, cfg_ (run e b calls) = cfg_ b.
Proof.
  induction calls as [| c calls IH]; intros b; [reflexivity |].
  unfold run in *. cbn [fold_left]. rewrite IH. apply call_cfg.
Qed.

Lemma reset_from_cfg (e : Engine) (b1 b2 : Debouncer e) (start_down : bool) :
  cfg_ b1 = cfg_ b2 -> reset e b1 start_down = reset e b2 start_down.
Proof.
  intros Hcfg. destruct e; cbn [reset Debouncer EngineState] in *;
    unfold Integrator.reset, Consecutive.reset, EdgeGated.reset;
    rewrite Hcfg; reflexivity.
Qed.

(** X4. For each engine, no sequence of [update] and [reset] calls changes
    the configuration, and [reset] forgets everything else: whatever calls
    came before a [reset(start_down)], the object behaves from there on as a
    freshly constructed object of the same configuration given the same
    [reset]. *)
Theorem reset_forgets_the_past
    (e : Engine) (b : Debouncer e) (before after : list Call)
    (start_down : bool) :
  cfg_ (run e b before) = cfg_ b /\
  run e b (before ++ CallReset start_down :: after) =
  run e (construct e (cfg_ b)) (CallReset start_down :: after).
Proof.
  split; [apply run_cfg |].
  unfold run. rewrite fold_left_app. cbn [fold_left call].
  f_equal. apply reset_from_cfg.
  fold (run e b before). rewrite run_cfg. destruct e; reflexivity.
Qed.

(** ** Integrator: hysteresis *)

Lemma integrator_update_band (b : Integrator.t) (raw_down : bool) :
  integ_off (cfg_ b) < integ_on (cfg_ b) ->
  let b' := Integrator.update b raw_down in
  (state_ b' = true -> integ_off (cfg_ b) < acc (eng_ b')) /\
  (state_ b' = false -> acc (eng_ b') < integ_on (cfg_ b)).
Proof.
  intros Hgap. unfold Integrator.update.
  set (a := Integrator.acc_tick b raw_down).
  destruct (state_ b) eqn:Hs; cbn [negb andb].
  - destruct (Z.leb_spec a (integ_off (cfg_ b)));
      cbn [state_ eng_ acc]; rewrite ?Hs; split; intros; try discriminate; lia.
  - destruct (Z.leb_spec (integ_on (cfg_ b)) a);
      cbn [state_ eng_ acc]; rewrite ?Hs; split; intros; try discriminate; lia.
Qed.

(** X5. Integrator with ordered thresholds
    [0 <= integ_off < integ_on <= integ_max]: after any sequence of [update]
    and [reset] calls on a freshly constructed object, the debounced level
    and the accumulator agree: while [down()] the accumulator is above
    [integ_off], while [up()] it is below [integ_on]. *)
Theorem integrator_level_within_band (cfg : Config) (calls : list Call) :
  hysteresis_config cfg ->
  let b := run EngIntegrator (construct EngIntegrator cfg) calls in
  (down b = true -> integ_off cfg < acc (eng_ b)) /\
  (down b = false -> acc (eng_ b) < integ_on cfg).
Proof.
  intros (Hoff & Hgap & Hon). unfold down.
  destruct calls as [| c calls] using rev_ind.
  - simpl. split; intros; [discriminate | lia].
  - clear IHcalls. rewrite run_snoc.
    pose proof (run_cfg EngIntegrator calls (construct EngIntegrator cfg)) as Hcfg.
    change (cfg_ (construct EngIntegrator cfg)) with cfg in Hcfg.
    remember (run EngIntegrator (construct EngIntegrator cfg) calls) as b eqn:Eb.
    clear Eb. cbn [Debouncer EngineState] in *. subst cfg.
    destruct c as [raw_down | start_down]; cbn [call update reset].
    + now apply integrator_update_band.
    + unfold Integrator.reset. cbn [state_ eng_ acc].
      destruct start_down; split; intros; try discriminate; lia.
Qed.

Lemma integrator_level_within_band_witness :
  let b := run EngIntegrator (construct EngIntegrator default_config)
             [CallUpdate true; CallUpdate true; CallReset true; CallUpdate false] in
  (down b = true -> integ_off default_config < acc (eng_ b)) /\
  (down b = false -> acc (eng_ b) < integ_on default_config).
Proof.
  apply (integrator_level_within_band default_config
           [CallUpdate true; CallUpdate true; CallReset true; CallUpdate false]).
  unfold hysteresis_config. simpl. lia.
Defined.

Lemma acc_tick_step (b : Integrator.t) (raw_down : bool) :
  is_uint8 (integ_max (cfg_ b)) -> is_uint8 (acc (eng_ b)) ->
  is_uint8 (Integrator.acc_tick b raw_down) /\
  acc (eng_ b) - 1 <= Integrator.acc_tick b raw_down <= acc (eng_ b) + 1.
Proof.
  unfold is_uint8, Integrator.acc_tick. intros Hmax Hacc.
  destruct raw_down.
  - destruct (Z.ltb_spec (acc (eng_ b)) (integ_max (cfg_ b)));
      [rewrite inc8_exact by lia |]; lia.
  - destruct (Z.ltb_spec 0 (acc (eng_ b)));
      [rewrite dec8_exact by lia |]; lia.
Qed.

Lemma integrator_stays_down (samples : list bool) :
  forall b : Integrator.t,
    is_uint8 (integ_max (cfg_ b)) -> is_uint8 (acc (eng_ b)) ->
    state_ b = true ->
    integ_off (cfg_ b) + Z.of_nat (length samples) < acc (eng_ b) ->
    Forall (fun b' => down b' = true /\ released b' = false)
      (trace Integrator.update b samples).
Proof.
  induction samples as [| raw rest IH]; intros b Hmax Hacc Hs Hlen;
    cbn [trace]; [constructor |].
  destruct (acc_tick_step b raw Hmax Hacc) as [Hr Hstep].
  assert (Hup : Integrator.update b raw =
                mkButtonDebounce (cfg_ b) true false false
                  {| acc := Integrator.acc_tick b raw |}).
  { unfold Integrator.update. rewrite Hs. cbn [negb andb].
    cbn [length] in Hlen.
    destruct (Z.leb_spec (Integrator.acc_tick b raw) (integ_off (cfg_ b)));
      [lia | reflexivity]. }
  rewrite Hup. constructor; [split; reflexivity |].
  apply IH; cbn [cfg_ eng_ acc state_]; try assumption; try reflexivity.
  cbn [length] in Hlen. lia.
Qed.

Lemma integrator_stays_up (samples : list bool) :
  forall b : Integrator.t,
    is_uint8 (integ_max (cfg_ b)) -> is_uint8 (acc (eng_ b)) ->
    state_ b = false ->
    acc (eng_ b) + Z.of_nat (length samples) < integ_on (cfg_ b) ->
    Forall (fun b' => down b' = false /\ pressed b' = false)
      (trace Integrator.update b samples).
Proof.
  induction samples as [| raw rest IH]; intros b Hmax Hacc Hs Hlen;
    cbn [trace]; [constructor |].
  destruct (acc_tick_step b raw Hmax Hacc) as [Hr Hstep].
  assert (Hup : Integrator.update b raw =
                mkButtonDebounce (cfg_ b) false false false
                  {| acc := Integrator.acc_tick b raw |}).
  { unfold Integrator.update. rewrite Hs. cbn [negb andb].
    cbn [length] in Hlen.
    destruct (Z.leb_spec (integ_on (cfg_ b)) (Integrator.acc_tick b raw));
      [lia | reflexivity]. }
  rewrite Hup. constructor; [split; reflexivity |].
  apply IH; cbn [cfg_ eng_ acc state_]; try assumption; try reflexivity.
  cbn [length] in Hlen. lia.
Qed.

Lemma integrator_pressed_inv (b : Integrator.t) (raw_down : bool) :
  pressed_ (Integrator.update b raw_down) = true ->
  state_ (Integrator.update b raw_down) = true /\
  integ_on (cfg_ b) <= acc (eng_ (Integrator.update b raw_down)).
Proof.
  unfold Integrator.update.
  destruct (state_ b); cbn [negb andb].
  - destruct (_ <=? integ_off _); cbn [pressed_]; discriminate.
  - destruct (Z.leb_spec (integ_on (cfg_ b)) (Integrator.acc_tick b raw_down));
      cbn [pressed_ state_ eng_ acc]; [auto | discriminate].
Qed.

Lemma integrator_released_inv (b : Integrator.t) (raw_down : bool) :
  released_ (Integrator.update b raw_down) = true ->
  state_ (Integrator.update b raw_down) = false /\
  acc (eng_ (Integrator.update b raw_down)) <= integ_off (cfg_ b).
Proof.
  unfold Integrator.update.
  destruct (state_ b); cbn [negb andb].
  - destruct (Z.leb_spec (Integrator.acc_tick b raw_down) (integ_off (cfg_ b)));
      cbn [released_ state_ eng_ acc]; [auto | discriminate].
  - destruct (integ_on _ <=? _); cbn [released_]; discriminate.
Qed.

(** X6. Integrator: the hysteresis gap is a minimum dwell time.  After an
    [update] that raises [pressed()], the object stays down and raises no
    [released()] during the next [integ_on - integ_off - 1] calls, whatever
    the samples; after one that raises [released()], it stays up and raises
    no [pressed()] for as long. *)
Theorem integrator_minimum_dwell
    (b : Integrator.t) (raw_down : bool) (samples : list bool) :
  is_uint8 (integ_max (cfg_ b)) ->
  is_uint8 (acc (eng_ b)) ->
  Z.of_nat (length samples) < integ_on (cfg_ b) - integ_off (cfg_ b) ->
  let b1 := Integrator.update b raw_down in
  (pressed b1 = true ->
   Forall (fun b' => down b' = true /\ released b' = false)
     (trace Integrator.update b1 samples)) /\
  (released b1 = true ->
   Forall (fun b' => down b' = false /\ pressed b' = false)
     (trace Integrator.update b1 samples)).
Proof.
  intros Hmax Hacc Hlen b1. subst b1.
  destruct (acc_tick_step b raw_down Hmax Hacc) as [Hr _].
  rewrite <- (IntegratorFacts.integrator_update_acc b raw_down) in Hr.
  pose proof (IntegratorFacts.integrator_update_cfg b raw_down) as Hcfg.
  split; intros Hflag.
  - destruct (integrator_pressed_inv b raw_down Hflag) as [Hs Hon].
    apply integrator_stays_down; rewrite ?Hcfg; try assumption.
    apply Z.lt_le_trans with (integ_on (cfg_ b));
      [clear - Hlen; lia | exact Hon].
  - destruct (integrator_released_inv b raw_down Hflag) as [Hs Hoff].
    apply integrator_stays_up; rewrite ?Hcfg; try assumption.
    apply Z.le_lt_trans
      with (integ_off (cfg_ b) + Z.of_nat (length samples));
      [| clear - Hlen; lia].
    apply Z.add_le_mono_r. exact Hoff.
Qed.

Lemma integrator_minimum_dwell_witness :
  let b := feed Integrator.update (Integrator.construct default_config)
             [true; true; true] in
  let b1 := Integrator.update b true in
  (pressed b1 = true ->
   Forall (fun b' => down b' = true /\ released b' = false)
     (trace Integrator.update b1 [false])) /\
  (released b1 = true ->
   Forall (fun b' => down b' = false /\ pressed b' = false)
     (trace Integrator.update b1 [false])).
Proof.
  apply (integrator_minimum_dwell
           (feed Integrator.update (Integrator.construct default_config)
              [true; true; true]) true [false]).
  - unfold is_uint8. vm_compute. split; [discriminate | reflexivity].
  - unfold is_uint8. vm_compute. split; [discriminate | reflexivity].
  - vm_compute. reflexivity.
Defined.

(** ** Integrator: latency from a settled object *)

Module IntegratorRun.
Section Run.

Variable b0 : Integrator.t.

Let vmax := integ_max (cfg_ b0).
Let von := integ_on (cfg_ b0).
Let voff := integ_off (cfg_ b0).

Hypothesis thresholds : hysteresis_config (cfg_ b0).
Hypothesis max_uint8 : is_uint8 (integ_max (cfg_ b0)).

Lemma press_run (k : nat) :
  let b := feed Integrator.update (Integrator.reset b0 false) (repeat true k) in
  cfg_ b = cfg_ b0 /\
  acc (eng_ b) = Z.min (Z.of_nat k) vmax /\
  state_ b = (von <=? Z.of_nat k) /\
  ((1 <= k)%nat -> pressed_ b = (Z.of_nat k =? von)).
Proof.
  destruct thresholds as (Hoff & Hgap & Hon). fold voff von vmax in Hoff, Hgap, Hon.
  pose proof max_uint8 as Hmax. unfold is_uint8 in Hmax. fold vmax in Hmax.
  induction k as [| k IH]; cbv zeta.
  - cbn [repeat feed fold_left Integrator.reset cfg_ eng_ acc state_].
    repeat split; try lia.
    symmetry. apply Z.leb_gt. lia.
  - rewrite repeat_succ_snoc, feed_snoc. cbv zeta in IH.
    set (b := feed Integrator.update (Integrator.reset b0 false) (repeat true k)) in *.
    destruct IH as (Hcfg & Hacc & Hs & _).
    assert (Ha : Integrator.acc_tick b true = Z.min (Z.of_nat (S k)) vmax).
    { rewrite acc_tick_saturates; rewrite ?Hcfg, ?Hacc; fold vmax;
        [lia | exact max_uint8 | lia]. }
    unfold Integrator.update. rewrite Ha, Hs, Hcfg. fold von voff.
    destruct (Z.leb_spec von (Z.of_nat k)) as [Hge | Hlt]; cbn [negb andb].
    + destruct (Z.leb_spec (Z.min (Z.of_nat (S k)) vmax) voff); [lia |].
      cbn [cfg_ eng_ acc state_ pressed_].
      repeat split; try reflexivity.
      * symmetry. apply Z.leb_le. lia.
      * intros _. symmetry. apply Z.eqb_neq. lia.
    + destruct (Z.leb_spec von (Z.min (Z.of_nat (S k)) vmax));
        cbn [cfg_ eng_ acc state_ pressed_]; repeat split; try reflexivity.
      * symmetry. apply Z.leb_le. lia.
      * intros _. symmetry. apply Z.eqb_eq. lia.
      * symmetry. apply Z.leb_gt. lia.
      * intros _. symmetry. apply Z.eqb_neq. lia.
Qed.

Lemma release_run (k : nat) :
  let b := feed Integrator.update (Integrator.reset b0 true) (repeat false k) in
  cfg_ b = cfg_ b0 /\
  acc (eng_ b) = Z.max (vmax - Z.of_nat k) 0 /\
  state_ b = (Z.of_nat k <? vmax - voff) /\
  ((1 <= k)%nat -> released_ b = (Z.of_nat k =? vmax - voff)).
Proof.
  destruct thresholds as (Hoff & Hgap & Hon). fold voff von vmax in Hoff, Hgap, Hon.
  pose proof max_uint8 as Hmax. unfold is_uint8 in Hmax. fold vmax in Hmax.
  induction k as [| k IH]; cbv zeta.
  - cbn [repeat feed fold_left Integrator.reset cfg_ eng_ acc state_].
    fold vmax. repeat split; try lia.
    symmetry. apply Z.ltb_lt. fold voff. lia.
  - rewrite repeat_succ_snoc, feed_snoc. cbv zeta in IH.
    set (b := feed Integrator.update (Integrator.reset b0 true) (repeat false k)) in *.
    destruct IH as (Hcfg & Hacc & Hs & _).
    assert (Ha : Integrator.acc_tick b false = Z.max (vmax - Z.of_nat (S k)) 0).
    { rewrite acc_tick_saturates; rewrite ?Hcfg, ?Hacc; fold vmax;
        [lia | exact max_uint8 | lia]. }
    unfold Integrator.update. rewrite Ha, Hs, Hcfg. fold von voff.
    destruct (Z.ltb_spec (Z.of_nat k) (vmax - voff)) as [Hlt | Hge];
      cbn [negb andb].
    + destruct (Z.leb_spec (Z.max (vmax - Z.of_nat (S k)) 0) voff);
        cbn [cfg_ eng_ acc state_ released_]; repeat split; try reflexivity.
      * symmetry. apply Z.ltb_ge. lia.
      * intros _. symmetry. apply Z.eqb_eq. lia.
      * symmetry. apply Z.ltb_lt. lia.
      * intros _. symmetry. apply Z.eqb_neq. lia.
    + destruct (Z.leb_spec von (Z.max (vmax - Z.of_nat (S k)) 0)); [lia |].
      cbn [cfg_ eng_ acc state_ released_].
      repeat split; try reflexivity.
      * symmetry. apply Z.ltb_ge. lia.
      * intros _. symmetry. apply Z.eqb_neq. lia.
Qed.

End Run.
End IntegratorRun.

(** X7. Integrator with ordered thresholds: on an object reset to released,
    the k-th consecutive [true] sample raises [pressed()] exactly when
    k = integ_on, and the object is down from then on; on an object reset to
    pressed, the k-th consecutive [false] sample raises [released()] exactly
    when k = integ_max - integ_off, and the object is up from then on. *)
Theorem integrator_latency (b : Integrator.t) (k : nat) :
  hysteresis_config (cfg_ b) ->
  is_uint8 (integ_max (cfg_ b)) ->
  (1 <= k)%nat ->
  let rising := feed Integrator.update (Integrator.reset b false) (repeat true k) in
  let falling := feed Integrator.update (Integrator.reset b true) (repeat false k) in
  pressed rising = (Z.of_nat k =? integ_on (cfg_ b)) /\
  down rising = (integ_on (cfg_ b) <=? Z.of_nat k) /\
  released falling = (Z.of_nat k =? integ_max (cfg_ b) - integ_off (cfg_ b)) /\
  down falling = (Z.of_nat k <? integ_max (cfg_ b) - integ_off (cfg_ b)).
Proof.
  intros Hth Hmax Hk rising falling. subst rising falling.
  destruct (IntegratorRun.press_run b Hth Hmax k) as (_ & _ & Hs1 & Hp).
  destruct (IntegratorRun.release_run b Hth Hmax k) as (_ & _ & Hs2 & Hr).
  unfold pressed, released, down. auto.
Qed.

Lemma integrator_latency_witness :
  let b := Integrator.construct default_config in
  let rising := feed Integrator.update (Integrator.reset b false) (repeat true 4) in
  let falling := feed Integrator.update (Integrator.reset b true) (repeat false 4) in
  pressed rising = (Z.of_nat 4 =? integ_on (cfg_ b)) /\
  down rising = (integ_on (cfg_ b) <=? Z.of_nat 4) /\
  released falling = (Z.of_nat 4 =? integ_max (cfg_ b) - integ_off (cfg_ b)) /\
  down falling = (Z.of_nat 4 <? integ_max (cfg_ b) - integ_off (cfg_ b)).
Proof.
  apply (integrator_latency (Integrator.construct default_config) 4%nat).
  - unfold hysteresis_config. simpl. lia.
  - unfold is_uint8. vm_compute. split; [discriminate | reflexivity].
  - lia.
Defined.

(** ** History engines: a sample that agrees with the level *)

Lemma consecutive_agreeing_sample (b : Consecutive.t) :
  1 <= consec_n (cfg_ b) ->
  Consecutive.update b (state_ b) =
    mkButtonDebounce (cfg_ b) (state_ b) false false
      {| hist := update_hist (hist (eng_ b)) (state_ b);
         unstable := unstable (eng_ b);
         bounce_k := bounce_k (eng_ b) |}.
Proof.
  intros Hn. unfold Consecutive.update.
  destruct (state_ b); cbn [negb andb].
  - rewrite not_all_released_after_true by assumption. reflexivity.
  - rewrite not_all_pressed_after_false by assumption. reflexivity.
Qed.

Lemma edge_gated_agreeing_sample (b : EdgeGated.t) :
  1 <= consec_n (cfg_ b) ->
  let b' := EdgeGated.update b (state_ b) in
  cfg_ b' = cfg_ b /\ state_ b' = state_ b /\
  pressed_ b' = false /\ released_ b' = false.
Proof.
  intros Hn. unfold EdgeGated.update.
  destruct (_ <=? EdgeGated.unstable_tick _ _); [repeat split |].
  destruct (EdgeGated.bouncing _ _); cbn [negb]; [repeat split |].
  unfold EdgeGated.hist_tick.
  destruct (state_ b); cbn [negb andb].
  - rewrite not_all_released_after_true by assumption. repeat split.
  - rewrite not_all_pressed_after_false by assumption. repeat split.
Qed.

Lemma consecutive_holds_level (k : nat) :
  forall (b : Consecutive.t) (s : bool),
    1 <= consec_n (cfg_ b) -> state_ b = s ->
    Forall (fun b' => down b' = s /\ pressed b' = false /\ released b' = false)
      (trace Consecutive.update b (repeat s k)).
Proof.
  induction k as [| k IH]; intros b s Hn Hs; cbn [repeat trace];
    [constructor |].
  rewrite <- Hs at 1 2. rewrite consecutive_agreeing_sample by assumption.
  constructor; [repeat split; exact Hs |].
  apply IH; assumption.
Qed.

Lemma edge_gated_holds_level (k : nat) :
  forall (b : EdgeGated.t) (s : bool),
    1 <= consec_n (cfg_ b) -> state_ b = s ->
    Forall (fun b' => down b' = s /\ pressed b' = false /\ released b' = false)
      (trace EdgeGated.update b (repeat s k)).
Proof.
  induction k as [| k IH]; intros b s Hn Hs; cbn [repeat trace];
    [constructor |].
  destruct (edge_gated_agreeing_sample b Hn) as (Hcfg & Hst & Hp & Hr).
  rewrite Hs in Hcfg, Hst, Hp, Hr.
  constructor.
  - unfold down, pressed, released. rewrite Hst. auto.
  - apply IH; [rewrite Hcfg; assumption | rewrite Hst; reflexivity ].
Qed.

(** X8. Consecutive and EdgeGated with [consec_n >= 1]: samples that agree
    with the debounced level never change it and raise no flag.  Fed any
    number of [true] samples a pressed object stays pressed, fed any number
    of [false] samples a released object stays released, with [pressed()] and
    [released()] false after every call. *)
Theorem history_engines_hold_level (b : ButtonDebounce HistoryState) (k : nat) :
  1 <= consec_n (cfg_ b) ->
  Forall (fun b' => down b' = down b /\ pressed b' = false /\ released b' = false)
    (trace Consecutive.update b (repeat (down b) k)) /\
  Forall (fun b' => down b' = down b /\ pressed b' = false /\ released b' = false)
    (trace EdgeGated.update b (repeat (down b) k)).
Proof.
  intros Hn. split.
  - now apply consecutive_holds_level.
  - now apply edge_gated_holds_level.
Qed.

Lemma history_engines_hold_level_witness :
  let b := Consecutive.reset (Consecutive.construct default_config) true in
  Forall (fun b' => down b' = down b /\ pressed b' = false /\ released b' = false)
    (trace Consecutive.update b (repeat (down b) 5)) /\
  Forall (fun b' => down b' = down b /\ pressed b' = false /\ released b' = false)
    (trace EdgeGated.update b (repeat (down b) 5)).
Proof.
  apply (history_engines_hold_level
           (Consecutive.reset (Consecutive.construct default_config) true) 5).
  simpl. lia.
Defined.

(** ** Consecutive: the length of the run before a release *)

Module ConsecutiveRelease.
Section Run.

Import Consecutive.

Variable b0 : Consecutive.t.

Let n := consec_n (cfg_ b0).
Let m := Z.min n 8.

Hypothesis n_pos : 1 <= n.
Hypothesis b0_pressed : state_ b0 = true.
Hypothesis b0_newest_set : Z.testbit (hist (eng_ b0)) 0 = true.

Local Abbreviation after := (after_released_run b0).

Lemma released_0 : after 0%nat b0.
Proof.
  unfold after_released_run, zeros_run. fold n. fold m.
  repeat split; auto; lia.
Qed.

Lemma zeros_run_step (h k : Z) :
  0 <= k < 8 -> zeros_run h k -> zeros_run (update_hist h false) (k + 1).
Proof.
  intros Hk [Hzeros Hone]. split.
  - intros i Hi. rewrite update_hist_testbit by lia.
    destruct (Z.eqb_spec i 0); [reflexivity |].
    destruct (Z.ltb_spec i 8); [| reflexivity].
    cbn [andb]. apply Hzeros. lia.
  - intros Hlt. rewrite update_hist_testbit by lia.
    destruct (Z.eqb_spec (k + 1) 0); [lia |].
    replace (k + 1 - 1) with k by lia.
    rewrite Hone by lia.
    destruct (Z.ltb_spec (k + 1) 8); [reflexivity | lia].
Qed.

Lemma released_step (k : nat) (b : Consecutive.t) :
  after k b -> after (S k) (update b false).
Proof.
  unfold after_released_run at 1. fold n. fold m.
  intros (Hcfg & Hlow & Hhigh & _).
  assert (Hm : 1 <= m <= 8) by (subst m; lia).
  assert (Hn : consec_n (cfg_ b) = n) by (subst n; now rewrite Hcfg).
  unfold after_released_run. fold n. fold m.
  rewrite ConsecutiveFacts.consecutive_update_cfg.
  destruct (Z.lt_ge_cases (Z.of_nat k) m) as [Hlt | Hge].
  - destruct (Hlow Hlt) as [Hst Hrun].
    apply zeros_run_step in Hrun; [| lia].
    replace (Z.of_nat k + 1) with (Z.of_nat (S k)) in Hrun by lia.
    destruct Hrun as [Hzeros Hone].
    unfold update. rewrite Hst, Hn. cbn [negb andb].
    destruct (all_released _ _) eqn:Hall; cbn [cfg_ state_ released_ eng_ hist].
    + rewrite all_released_bits in Hall by lia. fold m in Hall.
      assert (Z.of_nat (S k) = m).
      { destruct (Z.lt_ge_cases (Z.of_nat (S k)) m) as [Hlt' | Hge']; [| lia].
        rewrite Hall in Hone by lia. specialize (Hone ltac:(lia)).
        discriminate. }
      repeat split; try lia; try congruence.
      intros _. symmetry. now apply Z.eqb_eq.
    + assert (Z.of_nat (S k) < m).
      { destruct (Z.lt_ge_cases (Z.of_nat (S k)) m) as [Hlt' | Hge']; [lia |].
        assert (Hall' : all_released (update_hist (hist (eng_ b)) false)
                          (consec_mask n) = true).
        { rewrite all_released_bits by lia. fold m.
          intros i Hi. apply Hzeros. lia. }
        congruence. }
      repeat split; try lia; try assumption.
      intros _. symmetry. apply Z.eqb_neq. lia.
  - pose proof (Hhigh Hge) as Hst.
    unfold update. rewrite Hst, Hn. cbn [negb andb].
    rewrite not_all_pressed_after_false by assumption.
    cbn [cfg_ state_ released_ eng_ hist].
    repeat split; try lia; try assumption.
    intros _. symmetry. apply Z.eqb_neq. lia.
Qed.

Lemma released_feed (k : nat) : after k (feed update b0 (repeat false k)).
Proof.
  induction k as [| k IH].
  - exact released_0.
  - rewrite repeat_succ_snoc, feed_snoc. now apply released_step.
Qed.

End Run.
End ConsecutiveRelease.

(** X9. Consecutive with [consec_n = n >= 1]: from a pressed object whose
    newest history bit is set (the last sample was pressed, or the object was
    just reset to pressed), the k-th consecutive [false] sample raises
    [released()] exactly when k = min(n, 8), and the object is up from that
    sample on. *)
Theorem consecutive_release_run_completes (b : Consecutive.t) (k : nat) :
  1 <= consec_n (cfg_ b) ->
  down b = true ->
  Z.testbit (Consecutive.history b) 0 = true ->
  (1 <= k)%nat ->
  let m := Z.min (consec_n (cfg_ b)) 8 in
  let b' := feed Consecutive.update b (repeat false k) in
  released b' = (Z.of_nat k =? m) /\ down b' = (Z.of_nat k <? m).
Proof.
  intros Hn Hst Hbit Hk m b'. subst b'.
  destruct (ConsecutiveRelease.released_feed b Hn Hst Hbit k)
    as (_ & Hlow & Hhigh & Hr).
  fold m in Hlow, Hhigh, Hr.
  unfold released, down. split; [now apply Hr |].
  destruct (Z.ltb_spec (Z.of_nat k) m) as [Hlt | Hge].
  - now apply Hlow.
  - now apply Hhigh.
Qed.

Lemma consecutive_release_run_completes_witness :
  let b := Consecutive.reset (Consecutive.construct default_config) true in
  let m := Z.min (consec_n (cfg_ b)) 8 in
  let b' := feed Consecutive.update b (repeat false 3) in
  released b' = (Z.of_nat 3 =? m) /\ down b' = (Z.of_nat 3 <? m).
Proof.
  apply (consecutive_release_run_completes
           (Consecutive.reset (Consecutive.construct default_config) true) 3%nat).
  - simpl. lia.
  - reflexivity.
  - reflexivity.
  - lia.
Defined.

(** ** EdgeGated: ticks on which the gate is open *)

Lemma ungated_tick_same_view
    (b1 : EdgeGated.t) (b2 : Consecutive.t) (raw_down : bool) :
  same_view b1 b2 ->
  EdgeGated.bouncing b1 raw_down = false ->
  1 <= unstable_timeout (cfg_ b1) ->
  same_view (EdgeGated.update b1 raw_down) (Consecutive.update b2 raw_down).
Proof.
  intros (Hc & Hs & _ & _ & Hh) Hb Hto.
  unfold EdgeGated.update, EdgeGated.unstable_tick. rewrite Hb.
  destruct (Z.leb_spec (unstable_timeout (cfg_ b1)) 0); [lia |].
  cbn [negb]. unfold EdgeGated.hist_tick, Consecutive.update.
  rewrite Hc, Hs, Hh.
  destruct (negb (state_ b2) && _); [repeat split |].
  destruct (state_ b2 && _); repeat split.
Qed.

Lemma quiet_window_not_bouncing (b : EdgeGated.t) (raw_down : bool) :
  edgeCount8 (update_hist (hist (eng_ b)) raw_down) < edge_threshold (cfg_ b) ->
  1 <= bounce_confirm (cfg_ b) ->
  EdgeGated.bouncing b raw_down = false.
Proof.
  intros Hedges Hbc.
  unfold EdgeGated.bouncing, EdgeGated.bounce_k_tick, EdgeGated.bouncing_now,
    EdgeGated.hist_tick.
  destruct (Z.leb_spec (edge_threshold (cfg_ b))
              (edgeCount8 (update_hist (hist (eng_ b)) raw_down))); [lia |].
  apply Z.leb_gt. lia.
Qed.

Lemma consecutive_feed_cfg (samples : list bool) :
  forall b : Consecutive.t, cfg_ (feed Consecutive.update b samples) = cfg_ b.
Proof.
  induction samples as [| raw rest IH]; intros b; [reflexivity |].
  unfold feed in *. cbn [fold_left].
  rewrite IH. apply ConsecutiveFacts.consecutive_update_cfg.
Qed.

Lemma same_view_refl (b : ButtonDebounce HistoryState) : same_view b b.
Proof. repeat split. Qed.

Lemma open_gate_feed (samples : list bool) :
  forall (b1 : EdgeGated.t) (b2 : Consecutive.t),
    same_view b1 b2 ->
    8 < edge_threshold (cfg_ b1) ->
    1 <= bounce_confirm (cfg_ b1) ->
    1 <= unstable_timeout (cfg_ b1) ->
    same_view (feed EdgeGated.update b1 samples)
              (feed Consecutive.update b2 samples).
Proof.
  induction samples as [| raw rest IH]; intros b1 b2 Hv Het Hbc Hto;
    [exact Hv |].
  unfold feed in *. cbn [fold_left].
  apply IH; rewrite ?edge_gated_update_cfg; try assumption.
  apply ungated_tick_same_view; try assumption.
  apply quiet_window_not_bouncing; [| assumption].
  pose proof (edgeCount8_range (update_hist (hist (eng_ b1)) raw)). lia.
Qed.

(** X10. EdgeGated with [edge_threshold] above 8 (and [bounce_confirm],
    [unstable_timeout] at least 1) never detects chatter, since a window has
    at most 8 edges: fed the same samples from the same object, it shows the
    caller the same level, one-shot flags and history byte as the
    Consecutive engine after every call. *)
Theorem edge_gated_threshold_above_8_is_consecutive
    (b : ButtonDebounce HistoryState) (samples : list bool) :
  8 < edge_threshold (cfg_ b) ->
  1 <= bounce_confirm (cfg_ b) ->
  1 <= unstable_timeout (cfg_ b) ->
  let be := feed EdgeGated.update b samples in
  let bc := feed Consecutive.update b samples in
  down be = down bc /\ pressed be = pressed bc /\ released be = released bc /\
  EdgeGated.history be = Consecutive.history bc.
Proof.
  intros Het Hbc Hto be bc. subst be bc.
  destruct (open_gate_feed samples b b (same_view_refl b) Het Hbc Hto)
    as (_ & Hs & Hp & Hr & Hh).
  unfold down, pressed, released, EdgeGated.history, Consecutive.history.
  auto.
Qed.

Lemma edge_gated_threshold_above_8_is_consecutive_witness :
  let b := mkButtonDebounce
             {| integ_max := 6; integ_on := 4; integ_off := 2; consec_n := 2;
                edge_threshold := 9; unstable_timeout := 16;
                bounce_confirm := 1 |}
             false false false {| hist := 0; unstable := 0; bounce_k := 0 |} in
  let samples := [true; false; true; false; true; true; false; false] in
  let be := feed EdgeGated.update b samples in
  let bc := feed Consecutive.update b samples in
  down be = down bc /\ pressed be = pressed bc /\ released be = released bc /\
  EdgeGated.history be = Consecutive.history bc.
Proof.
  apply (edge_gated_threshold_above_8_is_consecutive
           (mkButtonDebounce
              {| integ_max := 6; integ_on := 4; integ_off := 2; consec_n := 2;
                 edge_threshold := 9; unstable_timeout := 16;
                 bounce_confirm := 1 |}
              false false false {| hist := 0; unstable := 0; bounce_k := 0 |})
           [true; false; true; false; true; true; false; false]);
    simpl; lia.
Defined.

(** ** EdgeGated: clean edges *)

Lemma small_index_cases (j : Z) :
  0 <= j <= 8 ->
  j = 0 \/ j = 1 \/ j = 2 \/ j = 3 \/ j = 4 \/ j = 5 \/ j = 6 \/ j = 7 \/ j = 8.
Proof. lia. Qed.

Lemma update_hist_ones (j : Z) :
  0 <= j <= 8 -> update_hist (Z.ones j) true = Z.ones (Z.min (j + 1) 8).
Proof.
  intros Hj.
  destruct (small_index_cases j Hj)
    as [->|[->|[->|[->|[->|[->|[->|[->| ->]]]]]]]]; reflexivity.
Qed.

Lemma update_hist_zeros (j : Z) :
  0 <= j <= 8 ->
  update_hist (0xFF - Z.ones j) false = 0xFF - Z.ones (Z.min (j + 1) 8).
Proof.
  intros Hj.
  destruct (small_index_cases j Hj)
    as [->|[->|[->|[->|[->|[->|[->|[->| ->]]]]]]]]; reflexivity.
Qed.

Lemma edgeCount8_rising (j : Z) : 0 <= j <= 8 -> edgeCount8 (Z.ones j) <= 1.
Proof.
  intros Hj.
  destruct (small_index_cases j Hj)
    as [->|[->|[->|[->|[->|[->|[->|[->| ->]]]]]]]];
    vm_compute; discriminate.
Qed.

Lemma edgeCount8_falling (j : Z) :
  0 <= j <= 8 -> edgeCount8 (0xFF - Z.ones j) <= 2.
Proof.
  intros Hj.
  destruct (small_index_cases j Hj)
    as [->|[->|[->|[->|[->|[->|[->|[->| ->]]]]]]]];
    vm_compute; discriminate.
Qed.

Lemma fold_trues (k : nat) :
  fold_left update_hist (repeat true k) 0 = Z.ones (Z.min (Z.of_nat k) 8).
Proof.
  induction k as [| k IH]; [reflexivity |].
  rewrite repeat_succ_snoc, fold_left_app. cbn [fold_left].
  rewrite IH, update_hist_ones by lia. f_equal. lia.
Qed.

Lemma fold_falses (k : nat) :
  fold_left update_hist (repeat false k) 0xFF =
  0xFF - Z.ones (Z.min (Z.of_nat k) 8).
Proof.
  induction k as [| k IH]; [reflexivity |].
  rewrite repeat_succ_snoc, fold_left_app. cbn [fold_left].
  rewrite IH, update_hist_zeros by lia. do 2 f_equal. lia.
Qed.

Lemma clean_press_same_view (b : EdgeGated.t) (k : nat) :
  2 <= edge_threshold (cfg_ b) ->
  1 <= bounce_confirm (cfg_ b) ->
  1 <= unstable_timeout (cfg_ b) ->
  same_view (feed EdgeGated.update (EdgeGated.reset b false) (repeat true k))
            (feed Consecutive.update (Consecutive.reset b false) (repeat true k)).
Proof.
  intros Het Hbc Hto. induction k as [| k IH]; [repeat split |].
  rewrite repeat_succ_snoc, !feed_snoc.
  pose proof IH as (Hc & _ & _ & _ & Hh).
  rewrite consecutive_feed_cfg in Hc. cbn [Consecutive.reset cfg_] in Hc.
  rewrite consecutive_feed_hist in Hh.
  cbn [Consecutive.reset eng_ hist] in Hh. rewrite fold_trues in Hh.
  apply ungated_tick_same_view; rewrite ?Hc; try assumption.
  apply quiet_window_not_bouncing; rewrite ?Hc; [| assumption].
  rewrite Hh, update_hist_ones by lia.
  pose proof (edgeCount8_rising (Z.min (Z.min (Z.of_nat k) 8 + 1) 8)). lia.
Qed.

Lemma clean_release_same_view (b : EdgeGated.t) (k : nat) :
  3 <= edge_threshold (cfg_ b) ->
  1 <= bounce_confirm (cfg_ b) ->
  1 <= unstable_timeout (cfg_ b) ->
  same_view (feed EdgeGated.update (EdgeGated.reset b true) (repeat false k))
            (feed Consecutive.update (Consecutive.reset b true) (repeat false k)).
Proof.
  intros Het Hbc Hto. induction k as [| k IH]; [repeat split |].
  rewrite repeat_succ_snoc, !feed_snoc.
  pose proof IH as (Hc & _ & _ & _ & Hh).
  rewrite consecutive_feed_cfg in Hc. cbn [Consecutive.reset cfg_] in Hc.
  rewrite consecutive_feed_hist in Hh.
  cbn [Consecutive.reset eng_ hist] in Hh. rewrite fold_falses in Hh.
  apply ungated_tick_same_view; rewrite ?Hc; try assumption.
  apply quiet_window_not_bouncing; rewrite ?Hc; [| assumption].
  rewrite Hh, update_hist_zeros by lia.
  pose proof (edgeCount8_falling (Z.min (Z.min (Z.of_nat k) 8 + 1) 8)). lia.
Qed.

(** X11. EdgeGated does not take a clean edge for chatter.  With
    [consec_n >= 1], [bounce_confirm >= 1] and [unstable_timeout >= 1]: on
    an object reset to released, if [edge_threshold >= 2], the k-th
    consecutive [true] sample raises [pressed()] exactly when
    k = min(consec_n, 8); on an object reset to pressed, if
    [edge_threshold >= 3], the k-th consecutive [false] sample raises
    [released()] exactly when k = min(consec_n, 8).  The release needs the
    larger threshold because a window of pressed samples above released
    ones counts two edges, bit 7 included. *)
Theorem edge_gated_clean_edges (b : EdgeGated.t) (k : nat) :
  1 <= consec_n (cfg_ b) ->
  1 <= bounce_confirm (cfg_ b) ->
  1 <= unstable_timeout (cfg_ b) ->
  (1 <= k)%nat ->
  let m := Z.min (consec_n (cfg_ b)) 8 in
  (2 <= edge_threshold (cfg_ b) ->
   let b' := feed EdgeGated.update (EdgeGated.reset b false) (repeat true k) in
   pressed b' = (Z.of_nat k =? m) /\ down b' = (m <=? Z.of_nat k)) /\
  (3 <= edge_threshold (cfg_ b) ->
   let b' := feed EdgeGated.update (EdgeGated.reset b true) (repeat false k) in
   released b' = (Z.of_nat k =? m) /\ down b' = (Z.of_nat k <? m)).
Proof.
  intros Hn Hbc Hto Hk m. split; intros Het b'; subst b'.
  - destruct (clean_press_same_view b k Het Hbc Hto) as (_ & Hs & Hp & _ & _).
    destruct (ConsecutiveRun.after_feed (Consecutive.reset b false)
                Hn eq_refl eq_refl k) as (_ & Hlow & Hhigh & Hpc).
    cbn [Consecutive.reset cfg_] in Hlow, Hhigh, Hpc. fold m in Hlow, Hhigh, Hpc.
    unfold pressed, down. rewrite Hs, Hp. split; [now apply Hpc |].
    destruct (Z.leb_spec m (Z.of_nat k)); [now apply Hhigh | now apply Hlow].
  - destruct (clean_release_same_view b k Het Hbc Hto) as (_ & Hs & _ & Hr & _).
    destruct (ConsecutiveRelease.released_feed (Consecutive.reset b true)
                Hn eq_refl eq_refl k) as (_ & Hlow & Hhigh & Hrc).
    cbn [Consecutive.reset cfg_] in Hlow, Hhigh, Hrc. fold m in Hlow, Hhigh, Hrc.
    unfold released, down. rewrite Hs, Hr. split; [now apply Hrc |].
    destruct (Z.ltb_spec (Z.of_nat k) m); [now apply Hlow | now apply Hhigh].
Qed.

Lemma edge_gated_clean_edges_witness :
  let b := EdgeGated.construct default_config in
  let m := Z.min (consec_n (cfg_ b)) 8 in
  (let b' := feed EdgeGated.update (EdgeGated.reset b false) (repeat true 3) in
   pressed b' = (Z.of_nat 3 =? m) /\ down b' = (m <=? Z.of_nat 3)) /\
  (let b' := feed EdgeGated.update (EdgeGated.reset b true) (repeat false 3) in
   released b' = (Z.of_nat 3 =? m) /\ down b' = (Z.of_nat 3 <? m)).
Proof.
  assert (Hn : 1 <= consec_n (cfg_ (EdgeGated.construct default_config)))
    by (vm_compute; discriminate).
  assert (Hbc : 1 <= bounce_confirm (cfg_ (EdgeGated.construct default_config)))
    by (vm_compute; discriminate).
  assert (Hto : 1 <= unstable_timeout (cfg_ (EdgeGated.construct default_config)))
    by (vm_compute; discriminate).
  destruct (edge_gated_clean_edges (EdgeGated.construct default_config) 3%nat
              Hn Hbc Hto ltac:(lia))
    as [Hpress Hrelease].
  split.
  - apply Hpress. vm_compute. discriminate.
  - apply Hrelease. vm_compute. discriminate.
Defined.

(** ** EdgeGated: degenerate thresholds and sustained chatter *)

Lemma bounce_k_update_uint8 (b : EdgeGated.t) (raw_down : bool) :
  is_uint8 (bounce_k (eng_ b)) ->
  is_uint8 (EdgeGated.bounce_k_tick b raw_down) /\
  is_uint8 (bounce_k (eng_ (EdgeGated.update b raw_down))).
Proof.
  intros Hk.
  assert (Ht : is_uint8 (EdgeGated.bounce_k_tick b raw_down)).
  { unfold EdgeGated.bounce_k_tick.
    rewrite guarded_inc8_saturates by assumption.
    unfold is_uint8 in *. destruct (EdgeGated.bouncing_now b raw_down); lia. }
  split; [exact Ht |].
  unfold EdgeGated.update.
  destruct (_ <=? EdgeGated.unstable_tick _ _);
    [cbn [eng_ bounce_k]; unfold is_uint8; lia |].
  destruct (EdgeGated.bouncing b raw_down); cbn [negb]; [exact Ht |].
  destruct (negb (state_ b) && _); [exact Ht |].
  destruct (state_ b && _); exact Ht.
Qed.

Lemma threshold_0_always_bouncing (b : EdgeGated.t) (raw_down : bool) :
  edge_threshold (cfg_ b) <= 0 ->
  bounce_confirm (cfg_ b) <= 1 ->
  is_uint8 (bounce_k (eng_ b)) ->
  EdgeGated.bouncing b raw_down = true.
Proof.
  intros Het Hbc Hk.
  unfold EdgeGated.bouncing, EdgeGated.bounce_k_tick, EdgeGated.bouncing_now.
  pose proof (edgeCount8_range (EdgeGated.hist_tick b raw_down)) as Hedges.
  destruct (Z.leb_spec (edge_threshold (cfg_ b))
              (edgeCount8 (EdgeGated.hist_tick b raw_down))); [| lia].
  rewrite guarded_inc8_saturates by assumption.
  unfold is_uint8 in Hk. apply Z.leb_le. lia.
Qed.

(** X12. EdgeGated with [edge_threshold = 0] and [bounce_confirm <= 1]:
    every tick counts as confirmed chatter, so no sequence of [update] calls
    ever changes the debounced level or raises a one-shot flag; only [reset]
    can move the level. *)
Theorem edge_gated_threshold_0_freezes (samples : list bool) :
  forall b : EdgeGated.t,
    edge_threshold (cfg_ b) <= 0 ->
    bounce_confirm (cfg_ b) <= 1 ->
    is_uint8 (bounce_k (eng_ b)) ->
    Forall (fun b' => down b' = down b /\ pressed b' = false /\ released b' = false)
      (trace EdgeGated.update b samples).
Proof.
  induction samples as [| raw rest IH]; intros b Het Hbc Hk; cbn [trace];
    [constructor |].
  pose proof (threshold_0_always_bouncing b raw Het Hbc Hk) as Hb.
  destruct (EdgeGatedFacts.update_when_gated b raw Hb) as (Hs & Hp & Hr).
  constructor; [unfold down, pressed, released; auto |].
  unfold down in *. rewrite <- Hs.
  apply IH; rewrite ?edge_gated_update_cfg; try assumption.
  apply bounce_k_update_uint8. assumption.
Qed.

Lemma edge_gated_threshold_0_freezes_witness :
  let b := EdgeGated.construct
             {| integ_max := 6; integ_on := 4; integ_off := 2; consec_n := 3;
                edge_threshold := 0; unstable_timeout := 16;
                bounce_confirm := 1 |} in
  Forall (fun b' => down b' = down b /\ pressed b' = false /\ released b' = false)
    (trace EdgeGated.update b [true; true; true; true]).
Proof.
  apply (edge_gated_threshold_0_freezes [true; true; true; true]
           (EdgeGated.construct
              {| integ_max := 6; integ_on := 4; integ_off := 2; consec_n := 3;
                 edge_threshold := 0; unstable_timeout := 16;
                 bounce_confirm := 1 |})).
  - vm_compute. discriminate.
  - vm_compute. discriminate.
  - unfold is_uint8. vm_compute. split; [discriminate | reflexivity].
Defined.

Lemma update_gated_no_timeout (b : EdgeGated.t) (raw_down : bool) :
  EdgeGated.bouncing b raw_down = true ->
  EdgeGated.unstable_tick b raw_down < unstable_timeout (cfg_ b) ->
  EdgeGated.update b raw_down =
    mkButtonDebounce (cfg_ b) (state_ b) false false
      {| hist := EdgeGated.hist_tick b raw_down;
         unstable := EdgeGated.unstable_tick b raw_down;
         bounce_k := EdgeGated.bounce_k_tick b raw_down |}.
Proof.
  intros Hb Hlt. unfold EdgeGated.update. rewrite Hb.
  destruct (Z.leb_spec (unstable_timeout (cfg_ b))
              (EdgeGated.unstable_tick b raw_down)); [lia |].
  reflexivity.
Qed.

Lemma unstable_tick_confirmed (b : EdgeGated.t) (raw_down : bool) :
  EdgeGated.bouncing b raw_down = true ->
  0 <= unstable (eng_ b) < 255 ->
  EdgeGated.unstable_tick b raw_down = unstable (eng_ b) + 1.
Proof.
  intros Hb Hu. unfold EdgeGated.unstable_tick. rewrite Hb.
  rewrite guarded_inc8_saturates by (unfold is_uint8; lia). lia.
Qed.

(** X13. EdgeGated: chatter cannot hold the gate shut beyond the timeout.
    If chatter is confirmed on every tick of a run that brings the
    [unstable] counter from its current value to [unstable_timeout], the
    last tick of the run recenters: the object ends with its level
    unchanged, both flags false, [hist] at 0xFF or 0x00 to match the level,
    and both counters at 0, as [reset] to the current level would leave it. *)
Theorem edge_gated_sustained_chatter_recenters (samples : list bool) :
  forall b : EdgeGated.t,
    is_uint8 (unstable_timeout (cfg_ b)) ->
    0 <= unstable (eng_ b) < unstable_timeout (cfg_ b) ->
    Z.of_nat (length samples) = unstable_timeout (cfg_ b) - unstable (eng_ b) ->
    all_confirmed b samples = true ->
    feed EdgeGated.update b samples = EdgeGated.reset b (state_ b).
Proof.
  induction samples as [| raw rest IH]; intros b HT Hu Hlen Hall.
  - cbn [length] in Hlen. lia.
  - cbn [all_confirmed] in Hall. apply andb_prop in Hall.
    destruct Hall as [Hb Hrest].
    unfold is_uint8 in HT.
    pose proof (unstable_tick_confirmed b raw Hb ltac:(lia)) as Htick.
    change (feed EdgeGated.update b (raw :: rest))
      with (feed EdgeGated.update (EdgeGated.update b raw) rest).
    destruct rest as [| raw' rest'].
    + cbn [length] in Hlen. cbn [feed fold_left].
      rewrite EdgeGatedFacts.update_on_timeout by lia.
      unfold EdgeGated.reset. destruct (state_ b); reflexivity.
    + assert (Hlt : EdgeGated.unstable_tick b raw < unstable_timeout (cfg_ b)).
      { cbn [length] in Hlen. lia. }
      pose proof (update_gated_no_timeout b raw Hb Hlt) as Hup.
      rewrite IH; rewrite ?Hup; cbn [cfg_ state_ eng_ unstable];
        try assumption.
      * reflexivity.
      * lia.
      * cbn [length] in *. lia.
      * rewrite <- Hup. exact Hrest.
Qed.

Lemma edge_gated_sustained_chatter_recenters_witness :
  feed EdgeGated.update chattering_released (alternating false 16) =
  EdgeGated.reset chattering_released (state_ chattering_released).
Proof.
  apply (edge_gated_sustained_chatter_recenters (alternating false 16)
           chattering_released).
  - unfold is_uint8. vm_compute. split; [discriminate | reflexivity].
  - vm_compute. split; [discriminate | reflexivity].
  - vm_compute. reflexivity.
  - vm_compute. reflexivity.
Defined.
